(** * FileFolderProvider of the knowledge cache

    A shallow embedding of
    [community_intern/knowledge_cache/providers/file_folder.py]:
    the provider's path index, [discover], [init_record], [refresh] and
    [load_text], together with the cache data model the provider works on.

    Conventions.
    - Python [int] is [Z]; [str] is [string]; [None] is [option].
    - A [pathlib.Path] is the list of its components.
    - The provider's [_file_sources] is a Python [dict], iterated by
      [refresh] in insertion order: it is an association list with
      Python's assignment ([PyDict.set]) and unique keys ([PyDict.wf]).
    - [CacheState.sources] is only looked up, and its records mutated in
      place: it is a [gmap]; the mutation of a record is the insertion of
      the updated record under its key.  Every key owns its record (the
      records come from [init_record] or from deserialisation, one object
      per key).
    - The filesystem is what the provider can observe of it during one
      call: the tree under [sources_dir], and the outcome of [stat] and of
      [read_text] for every path.
    - [hash_text] and [format_rfc3339] come from
      [community_intern.knowledge_cache.utils]; they are parameters.
    - A [Path] and a [FileMetadata] object are truthy, so [if not file_path]
      and [if not file_meta] test for [None].
    - The calls a test would instrument ([stat], [read_text],
      [hash_text]) are recorded in a trace, each with the source id of the
      loop iteration that makes the call. *)

From stdpp Require Import gmap strings list fin_maps.

Open Scope Z_scope.
Open Scope string_scope.
Open Scope list_scope.

(** ** Python dictionaries in insertion order *)

Module PyDict.

Definition dict (V : Type) : Type := list (string * V).

Definition keys {V} (d : dict V) : list string := d.*1.

(** [d.get(k)] *)
Fixpoint get {V} (d : dict V) (k : string) : option V :=
  match d with
  | [] => None
  | (k', v) :: d' => if decide (k' = k) then Some v else get d' k
  end.

(** [d[k] = v]: an existing key keeps its position, a new one goes last. *)
Fixpoint set {V} (d : dict V) (k : string) (v : V) : dict V :=
  match d with
  | [] => [(k, v)]
  | (k', v') :: d' =>
      if decide (k' = k) then (k, v) :: d' else (k', v') :: set d' k v
  end.

(** [d.pop(k, None)]: the dictionary without the key. *)
Definition remove {V} (d : dict V) (k : string) : dict V :=
  filter (λ e : string * V, e.1 ≠ k) (d : list (string * V)).

(** Keys of a dictionary are unique. *)
Definition wf {V} (d : dict V) : Prop := NoDup (keys d).

End PyDict.

Abbreviation dict := PyDict.dict.

(** ** Data model ([community_intern.knowledge_cache.models]) *)

Definition SourceType := string.

Record FileMetadata := mkFileMetadata {
  rel_path : string;
  size_bytes : Z;
  mtime_ns : Z
}.

Record CacheRecord := mkCacheRecord {
  source_type : SourceType;
  content_hash : string;
  summary_text : string;
  last_indexed_at : string;
  summary_pending : bool;
  file : option FileMetadata
}.

Record CacheState := mkCacheState {
  sources : gmap string CacheRecord
}.

#[global] Instance FileMetadata_eq_dec : EqDecision FileMetadata.
Proof. solve_decision. Defined.

#[global] Instance CacheRecord_eq_dec : EqDecision CacheRecord.
Proof. solve_decision. Defined.

(** ** The filesystem as the provider observes it *)

Definition Path := list string.

(** [os.stat_result], the two fields the provider reads. *)
Record StatResult := mkStat {
  st_size : Z;
  st_mtime_ns : Z
}.

(** Outcome of [Path.read_text(encoding="utf-8")]. *)
Inductive ReadResult :=
| ReadOk (text : string)
| ReadUnicodeDecodeError
| ReadOSError.

(** What lies under a directory entry.  [File] is anything for which
    [is_file()] answers true, [Other] anything that is neither a regular
    file nor a directory that can be listed. *)
#[warnings="-register-all"]
Inductive Node :=
| File
| Dir (entries : list (string * Node))
| Other.

Record FileSystem := mkFileSystem {
  fs_root : option Node;            (* what [sources_dir] names, if it exists *)
  fs_stat : Path → option StatResult;  (* [None]: [OSError] *)
  fs_read : Path → ReadResult
}.

(** Instrumented calls. *)
Inductive Event :=
| EvStat (source_id : string) (p : Path)
| EvRead (source_id : string) (p : Path)
| EvHash (source_id : string) (text : string).

#[global] Instance Event_eq_dec : EqDecision Event.
Proof. solve_decision. Defined.

(** ** The provider *)

Record FileFolderProvider := mkProvider {
  _sources_dir : Path;
  _file_sources : dict Path
}.

(** *** Path operations used by [discover] *)

(** [Path.rglob("*")]: every entry below a directory; the entries of a
    directory come first, then what lies below each of them. *)
Fixpoint rglob (dir : Path) (n : Node) : list (Path * Node) :=
  match n with
  | Dir entries =>
      map (λ e, (dir ++ [e.1], e.2)) entries ++
      flat_map (λ e, rglob (dir ++ [e.1]) e.2) entries
  | _ => []
  end.

(** [Path.is_file()] *)
Definition is_file (n : Node) : bool :=
  match n with File => true | _ => false end.

(** [Path.name]: the final component. *)
Definition name (p : Path) : string := List.last p "".

(** [str.startswith] *)
Definition startswith (s pre : string) : bool := String.prefix pre s.

(** [Path.relative_to(other)]; [None] stands for [ValueError]. *)
Fixpoint relative_to (p other : Path) : option Path :=
  match other with
  | [] => Some p
  | c :: other' =>
      match p with
      | [] => None
      | c' :: p' => if decide (c' = c) then relative_to p' other' else None
      end
  end.

(** [PurePath.as_posix()] of a relative path. *)
Definition as_posix (p : Path) : string := String.concat "/" p.

Section Provider.

(** [datetime.datetime], and the two helpers of
    [community_intern.knowledge_cache.utils]. *)
Variable datetime : Type.
Variable hash_text : string → string.
Variable format_rfc3339 : datetime → string.

(** *** [discover] *)

(** One iteration of the loop over [rglob("*")]; the state is the pair
    of [sources] and [self._file_sources]. *)
Definition discover_step (root : Path)
    (acc : dict SourceType * dict Path) (entry : Path * Node)
    : dict SourceType * dict Path :=
  let '(file_path, node) := entry in
  if negb (is_file node) then acc
  else if startswith (name file_path) "." then acc
  else match relative_to file_path root with
       | None => acc
       | Some rel =>
           let rel_path := as_posix rel in
           (PyDict.set acc.1 rel_path "file",
            PyDict.set acc.2 rel_path file_path)
       end.

Definition discover (fs : FileSystem) (self : FileFolderProvider)
    (now : datetime) : FileFolderProvider * dict SourceType :=
  let root := _sources_dir self in
  match fs_root fs with
  | None => (mkProvider root [], [])
  | Some tree =>
      let r := foldl (discover_step root) ([], []) (rglob root tree) in
      (mkProvider root r.2, r.1)
  end.

(** *** [init_record] *)

Definition init_record (fs : FileSystem) (self : FileFolderProvider)
    (source_id : string) (now : datetime) : option CacheRecord :=
  match PyDict.get (_file_sources self) source_id with
  | None => None
  | Some file_path =>
      match fs_stat fs file_path with
      | None => None
      | Some stat =>
          match fs_read fs file_path with
          | ReadUnicodeDecodeError => None
          | ReadOSError => None
          | ReadOk text =>
              let content_hash := hash_text text in
              Some {| source_type := "file";
                      content_hash := content_hash;
                      summary_text := "";
                      last_indexed_at := format_rfc3339 now;
                      summary_pending := true;
                      file := Some (mkFileMetadata source_id
                                      (st_size stat) (st_mtime_ns stat)) |}
          end
      end
  end.

(** *** [refresh] *)

Record RefreshState := mkRefreshState {
  rs_cache : CacheState;
  rs_changed : bool;
  rs_trace : list Event
}.

Definition log (e : Event) (st : RefreshState) : RefreshState :=
  {| rs_cache := rs_cache st;
     rs_changed := rs_changed st;
     rs_trace := rs_trace st ++ [e] |}.

(** The assignments at the end of the loop body, on the record object. *)
Definition updated_record (record : CacheRecord) (rel_path : string)
    (stat : StatResult) (new_hash : string) : CacheRecord :=
  let record :=
    {| source_type := source_type record;
       content_hash := content_hash record;
       summary_text := summary_text record;
       last_indexed_at := last_indexed_at record;
       summary_pending := summary_pending record;
       file := Some (mkFileMetadata rel_path
                       (st_size stat) (st_mtime_ns stat)) |} in
  if decide (new_hash ≠ content_hash record ∨ summary_pending record = true)
  then {| source_type := source_type record;
          content_hash := new_hash;
          summary_text := summary_text record;
          last_indexed_at := last_indexed_at record;
          summary_pending := true;
          file := file record |}
  else record.

(** One iteration of the loop over [self._file_sources.items()]. *)
Definition refresh_step (fs : FileSystem)
    (st : RefreshState) (item : string * Path) : RefreshState :=
  let '(rel_path, file_path) := item in
  match sources (rs_cache st) !! rel_path with
  | None => st
  | Some record =>
      if decide (source_type record ≠ "file") then st
      else
        let st := log (EvStat rel_path file_path) st in
        match fs_stat fs file_path with
        | None => st
        | Some stat =>
            let file_meta :=
              match file record with
              | Some m => m
              | None => mkFileMetadata rel_path
                          (st_size stat) (st_mtime_ns stat)
              end in
            if decide (size_bytes file_meta = st_size stat
                       ∧ mtime_ns file_meta = st_mtime_ns stat)
            then st
            else
              let st := log (EvRead rel_path file_path) st in
              match fs_read fs file_path with
              | ReadUnicodeDecodeError => st
              | ReadOSError => st
              | ReadOk text =>
                  let st := log (EvHash rel_path text) st in
                  let content_hash := hash_text text in
                  {| rs_cache :=
                       mkCacheState
                         (<[rel_path :=
                              updated_record record rel_path stat content_hash]>
                            (sources (rs_cache st)));
                     rs_changed := true;
                     rs_trace := rs_trace st |}
              end
        end
  end.

Definition refresh_from (fs : FileSystem) (st : RefreshState)
    (items : dict Path) : RefreshState :=
  foldl (refresh_step fs) st items.

Definition refresh (fs : FileSystem) (self : FileFolderProvider)
    (cache : CacheState) (now : datetime) : RefreshState :=
  refresh_from fs (mkRefreshState cache false []) (_file_sources self).

(** *** [load_text] *)

Definition load_text (fs : FileSystem) (self : FileFolderProvider)
    (source_id : string) : option string :=
  match PyDict.get (_file_sources self) source_id with
  | None => None
  | Some file_path =>
      match fs_read fs file_path with
      | ReadOk text => Some text
      | _ => None
      end
  end.

(** *** Sequences of provider calls on one cache *)

Inductive Call :=
| CallDiscover (now : datetime)
| CallInitRecord (source_id : string) (now : datetime)
| CallRefresh (now : datetime)
| CallLoadText (source_id : string).

(** The effect of a call on the provider and on the cache; what
    [init_record] and [load_text] return goes to the caller and leaves
    both as they are. *)
Definition run_call (w : FileFolderProvider * CacheState)
    (c : FileSystem * Call) : FileFolderProvider * CacheState :=
  let '(self, cache) := w in
  let '(fs, call) := c in
  match call with
  | CallDiscover now => ((discover fs self now).1, cache)
  | CallInitRecord _ _ => (self, cache)
  | CallRefresh now => (self, rs_cache (refresh fs self cache now))
  | CallLoadText _ => (self, cache)
  end.

Definition run_calls (w : FileFolderProvider * CacheState)
    (cs : list (FileSystem * Call)) : FileFolderProvider * CacheState :=
  foldl run_call w cs.

End Provider.

Arguments discover {datetime} fs self now.
Arguments init_record {datetime} hash_text format_rfc3339 fs self source_id now.
Arguments refresh {datetime} hash_text fs self cache now.
Arguments run_call {datetime} hash_text w c.
Arguments run_calls {datetime} hash_text w cs.
Arguments CallDiscover {datetime} now.
Arguments CallInitRecord {datetime} source_id now.
Arguments CallRefresh {datetime} now.
Arguments CallLoadText {datetime} source_id.

(** ** Vocabulary of the statements *)

Section Vocabulary.

Variable hash_text : string → string.
Variable fs : FileSystem.

Implicit Types (st : RefreshState) (r : CacheRecord) (k : string)
  (p : Path) (items : dict Path).

(** The record of source [k] in the cache of a loop state. *)
Definition record_at st k : option CacheRecord := sources (rs_cache st) !! k.

(** The source an instrumented call was made for. *)
Definition event_source (e : Event) : string :=
  match e with
  | EvStat k _ => k
  | EvRead k _ => k
  | EvHash k _ => k
  end.

(** The stored fingerprint of [r] equals the stat result. *)
Definition fingerprint_matches r (stat : StatResult) : Prop :=
  ∃ m, file r = Some m
       ∧ size_bytes m = st_size stat ∧ mtime_ns m = st_mtime_ns stat.

(** What one record may become in the course of [refresh]. *)
Record evolves r r' : Prop := mkEvolves {
  ev_source_type : source_type r' = source_type r;
  ev_summary_text : summary_text r' = summary_text r;
  ev_last_indexed_at : last_indexed_at r' = last_indexed_at r;
  ev_pending_kept : summary_pending r = true → summary_pending r' = true;
  ev_hash_pending :
    content_hash r' ≠ content_hash r → summary_pending r' = true;
  ev_not_file : source_type r ≠ "file" → r' = r;
  ev_no_metadata : file r = None → r' = r
}.

(** The two ways an iteration can end: nothing but the trace is touched,
    or the record of the source is re-read and overwritten. *)
Inductive step_outcome st k p : RefreshState → Prop :=
| outcome_skip st' :
    rs_cache st' = rs_cache st →
    rs_changed st' = rs_changed st →
    step_outcome st k p st'
| outcome_update st' r m stat text :
    record_at st k = Some r →
    source_type r = "file" →
    file r = Some m →
    fs_stat fs p = Some stat →
    ¬ fingerprint_matches r stat →
    fs_read fs p = ReadOk text →
    rs_cache st' =
      mkCacheState (<[k := updated_record r k stat (hash_text text)]>
                      (sources (rs_cache st))) →
    rs_changed st' = true →
    rs_trace st' =
      rs_trace st ++ [EvStat k p; EvRead k p; EvHash k text] →
    step_outcome st k p st'.

(** The fingerprint check ends the iteration: [stat] fails, or the
    fingerprint compared with the stat result is equal to it. *)
Definition short_circuits r p : Prop :=
  match fs_stat fs p with
  | None => True
  | Some stat => file r = None ∨ fingerprint_matches r stat
  end.

(** Two loop states with the same cache and flag. *)
Definition same_result st1 st2 : Prop :=
  rs_cache st1 = rs_cache st2 ∧ rs_changed st1 = rs_changed st2.

(** The provider without one source in its index. *)
Definition forget (self : FileFolderProvider) (source_id : string)
    : FileFolderProvider :=
  {| _sources_dir := _sources_dir self;
     _file_sources := PyDict.remove (_file_sources self) source_id |}.

(** [below tree rel node]: following the components of the relative path
    [rel] from the directory [tree] leads to [node]. *)
Inductive below : Node → Path → Node → Prop :=
| below_entry entries c node :
    (c, node) ∈ entries → below (Dir entries) [c] node
| below_deeper entries c child rel node :
    (c, child) ∈ entries → below child rel node →
    below (Dir entries) (c :: rel) node.

(** An entry of the walk that [discover] records: a regular file whose
    name does not start with a dot, at [rel] relative to the root. *)
Definition accepted (root : Path) (entry : Path * Node) (rel : Path) : Prop :=
  is_file entry.2 = true
  ∧ startswith (name entry.1) "." = false
  ∧ relative_to entry.1 root = Some rel.

End Vocabulary.

(** ** A source tree and a cache to evaluate the provider on *)

Module Fixture.

(** Test doubles for the helpers of [utils]: a time is given by its
    RFC 3339 text, and the digest of a text is the text in brackets. *)
Definition datetime : Type := string.
Definition format_rfc3339 (now : datetime) : string := now.
Definition hash_text (text : string) : string :=
  String.append "H(" (String.append text ")").

Definition T0 : datetime := "2024-01-01T00:00:00.000Z".
Definition T1 : datetime := "2024-06-01T12:00:00.000Z".

Definition provider : FileFolderProvider :=
  {| _sources_dir := ["kb"];
     _file_sources :=
       [("a.txt", ["kb"; "a.txt"]); ("b.txt", ["kb"; "b.txt"]);
        ("c.txt", ["kb"; "c.txt"]); ("d.txt", ["kb"; "d.txt"]);
        ("e.txt", ["kb"; "e.txt"]); ("page", ["kb"; "page"]);
        ("g.txt", ["kb"; "g.txt"])] |}.

Definition file_record (h : string) (pending : bool)
    (m : option FileMetadata) : CacheRecord :=
  {| source_type := "file"; content_hash := h; summary_text := "summary";
     last_indexed_at := format_rfc3339 T0; summary_pending := pending;
     file := m |}.

Definition rec_a := file_record (hash_text "hello") false
                      (Some (mkFileMetadata "a.txt" 5 100)).
Definition rec_b := file_record (hash_text "world") false
                      (Some (mkFileMetadata "b.txt" 5 100)).
Definition rec_c := file_record (hash_text "abc") true
                      (Some (mkFileMetadata "c.txt" 3 50)).
Definition rec_d := file_record (hash_text "d") false
                      (Some (mkFileMetadata "d.txt" 1 10)).
Definition rec_e := file_record (hash_text "e") false None.
Definition rec_page : CacheRecord :=
  {| source_type := "web"; content_hash := hash_text "<html>";
     summary_text := ""; last_indexed_at := format_rfc3339 T0;
     summary_pending := false; file := None |}.

Definition cache : CacheState :=
  {| sources :=
       <["a.txt" := rec_a]> (<["b.txt" := rec_b]> (<["c.txt" := rec_c]>
       (<["d.txt" := rec_d]> (<["e.txt" := rec_e]>
       (<["page" := rec_page]> ∅))))) |}.

(** The tree at the time of the pass: [a.txt] was edited, [b.txt] was
    edited with size and modification time preserved, [c.txt] is no
    longer valid UTF-8, [d.txt] cannot be examined, [g.txt] is new. *)
Definition fs : FileSystem :=
  {| fs_root :=
       Some (Dir [("a.txt", File); ("b.txt", File); ("c.txt", File);
                  ("d.txt", File); ("e.txt", File); ("page", File);
                  ("g.txt", File); (".hidden", File);
                  ("sub", Dir [("x.md", File); (".git", Dir [("y", File)]);
                               ("pipe", Other)])]);
     fs_stat := λ p,
       if decide (p = ["kb"; "a.txt"]) then Some (mkStat 6 200)
       else if decide (p = ["kb"; "b.txt"]) then Some (mkStat 5 100)
       else if decide (p = ["kb"; "c.txt"]) then Some (mkStat 4 60)
       else if decide (p = ["kb"; "d.txt"]) then None
       else if decide (p = ["kb"; "e.txt"]) then Some (mkStat 9 90)
       else if decide (p = ["kb"; "page"]) then Some (mkStat 7 70)
       else if decide (p = ["kb"; "g.txt"]) then Some (mkStat 3 30)
       else None;
     fs_read := λ p,
       if decide (p = ["kb"; "a.txt"]) then ReadOk "hello!"
       else if decide (p = ["kb"; "b.txt"]) then ReadOk "WORLD"
       else if decide (p = ["kb"; "c.txt"]) then ReadUnicodeDecodeError
       else if decide (p = ["kb"; "d.txt"]) then ReadOSError
       else if decide (p = ["kb"; "e.txt"]) then ReadOk "e, edited"
       else if decide (p = ["kb"; "page"]) then ReadOk "<html>"
       else if decide (p = ["kb"; "g.txt"]) then ReadOk "new"
       else ReadOSError |}.

Definition refreshed : RefreshState := refresh hash_text fs provider cache T1.

End Fixture.

(** ** Further vocabulary: the loop body on one record, call counts *)

Section RecordTransition.

Variable hash_text : string → string.
Variable fs : FileSystem.

(** What the body of the loop of [refresh] assigns to the record [r] of
    source [k] at path [p]: the new record, or nothing when the iteration
    ends at a [continue]. *)
Definition refreshed_record (k : string) (p : Path) (r : CacheRecord)
    : option CacheRecord :=
  if decide (source_type r ≠ "file") then None
  else
    match fs_stat fs p with
    | None => None
    | Some stat =>
        match file r with
        | None => None
        | Some m =>
            if decide (size_bytes m = st_size stat
                       ∧ mtime_ns m = st_mtime_ns stat)
            then None
            else
              match fs_read fs p with
              | ReadOk text =>
                  Some (updated_record r k stat (hash_text text))
              | _ => None
              end
        end
    end.

(** The calls [refresh] may make for the index [items]: a stat of an
    indexed path, a read of an indexed path whose stat succeeded, a hash
    of the text such a read returned. *)
Definition event_allowed (items : dict Path) (e : Event) : Prop :=
  match e with
  | EvStat k p => (k, p) ∈ items
  | EvRead k p => (k, p) ∈ items ∧ is_Some (fs_stat fs p)
  | EvHash k text =>
      ∃ p, (k, p) ∈ items ∧ is_Some (fs_stat fs p)
           ∧ fs_read fs p = ReadOk text
  end.

End RecordTransition.

Definition is_stat (e : Event) : bool :=
  match e with EvStat _ _ => true | _ => false end.

Definition is_read (e : Event) : bool :=
  match e with EvRead _ _ => true | _ => false end.

Definition is_hash (e : Event) : bool :=
  match e with EvHash _ _ => true | _ => false end.

(** Number of the calls of one kind in a trace. *)
Definition count_events (f : Event → bool) (tr : list Event) : nat :=
  length (List.filter f tr).

(** Every "file" record has file metadata, and the metadata names the
    source the record is stored under. *)
Definition file_metadata_ok (cache : CacheState) : Prop :=
  ∀ k r, sources cache !! k = Some r → source_type r = "file" →
         ∃ m, file r = Some m ∧ rel_path m = k.

(** ** The text helpers of [community_intern/ai_response/impl.py]

    [str] is [string].  Which characters [str.strip] removes is decided
    by [str.isspace]; the helpers are defined for any such test
    ([isspace]).  The message types come from
    [community_intern.core.models]: the records below have the fields the
    helpers read, a field that may be [None] is an [option]. *)

Module AIResponse.

Record AttachmentInput := mkAttachmentInput {
  filename : option string;
  is_image : bool
}.

Record ImageInput := mkImageInput {
  image_filename : option string   (* [ImageInput.filename] *)
}.

Record Message := mkMessage {
  role : string;
  text : option string;
  attachments : option (list AttachmentInput);
  images : option (list ImageInput)
}.

(** Truth value of an optional sequence: [None] and the empty sequence
    are false. *)
Definition truthy {A} (l : option (list A)) : bool :=
  match l with
  | Some (_ :: _) => true
  | _ => false
  end.

(** Truth value of a string. *)
Definition nonempty (s : string) : bool :=
  match s with
  | EmptyString => false
  | String _ _ => true
  end.

(** The newline character, as a string. *)
Definition newline : string := String (Ascii.ascii_of_nat 10) EmptyString.

(** [s[n:]] *)
Fixpoint string_drop (n : nat) (s : string) : string :=
  match n, s with
  | O, _ => s
  | S n', String _ s' => string_drop n' s'
  | S _, EmptyString => EmptyString
  end.

(** [s.startswith((p1, p2, ...))] *)
Definition startswith_any (s : string) (prefixes : list string) : bool :=
  existsb (startswith s) prefixes.

Section Strip.

Variable isspace : Ascii.ascii → bool.

(** [str.lstrip()] *)
Fixpoint lstrip (s : string) : string :=
  match s with
  | EmptyString => EmptyString
  | String c s' => if isspace c then lstrip s' else s
  end.

(** [str.rstrip()] *)
Fixpoint rstrip (s : string) : string :=
  match s with
  | EmptyString => EmptyString
  | String c s' =>
      match rstrip s' with
      | EmptyString => if isspace c then EmptyString else String c EmptyString
      | t => String c t
      end
  end.

(** [str.strip()] *)
Definition strip (s : string) : string := lstrip (rstrip s).

(** One iteration of the loop of [_append_selected_links] over
    [selected_source_ids]. *)
Definition link_step (links : list string) (source_id : string)
    : list string :=
  let raw := strip source_id in
  if startswith_any raw ["http://"; "https://"] then links ++ [raw]
  else if startswith raw "kb:" then
    let inner := strip (string_drop (String.length "kb:") raw) in
    if startswith_any inner ["http://"; "https://"] then links ++ [inner]
    else links
  else links.

Definition _append_selected_links (reply_text : string)
    (selected_source_ids : list string) : string :=
  let links := foldl link_step [] selected_source_ids in
  match links with
  | [] => reply_text
  | _ =>
      let lines :=
        [rstrip reply_text; ""; "Links:"]
        ++ map (λ link, String.append "- " link) links in
      strip (String.concat newline lines)
  end.

Definition _attachment_placeholder_line (attachment : AttachmentInput)
    : string :=
  let filename := strip (default "" (filename attachment)) in
  let label := if is_image attachment then "Image" else "Attachment" in
  if nonempty filename
  then String.append label (String.append ": " filename)
  else String.append label ": file uploaded".

Definition _build_attachment_placeholders (msg : Message) : list string :=
  if truthy (attachments msg)
  then map _attachment_placeholder_line (default [] (attachments msg))
  else [].

Definition _build_image_placeholders_from_images (images : list ImageInput)
    : list string :=
  map (λ image,
         let filename := strip (default "" (image_filename image)) in
         if nonempty filename then String.append "Image: " filename
         else "Image: file uploaded")
      images.

Definition _format_text_lines (msg : Message) : list string :=
  let raw_text := strip (default "" (text msg)) in
  let text_lines := if nonempty raw_text then [raw_text] else [] in
  let text_lines := text_lines ++ _build_attachment_placeholders msg in
  if negb (bool_decide (text_lines ≠ [])) && truthy (images msg)
  then text_lines ++ ["User sent images."]
  else text_lines.

(** [ContentPart] of [community_intern.llm.image_adapters]; the images
    are what [build_base64_images] of [community_intern.llm.image_utils]
    makes of the inputs, or nothing when it raises. *)
Variable Base64Image : Type.
Variable build_base64_images : list ImageInput → option (list Base64Image).

Inductive ContentPart :=
| TextPart (text : string)
| ImagePart (image : Base64Image).

Definition is_text_part (part : ContentPart) : Prop :=
  match part with
  | TextPart _ => True
  | ImagePart _ => False
  end.

(** The loop of [_build_user_parts] over [conversation.messages], from
    the parts collected so far; [None] when [build_base64_images]
    raises.  The lines of a message are joined with the two characters
    backslash and n, as the format string has them. *)
Fixpoint user_parts_from (parts : list ContentPart) (messages : list Message)
    : option (list ContentPart) :=
  match messages with
  | [] => Some parts
  | msg :: rest =>
      if decide (role msg ≠ "user") then user_parts_from parts rest
      else
        let text_lines := _format_text_lines msg in
        let parts :=
          match text_lines with
          | [] => parts
          | _ => parts ++ [TextPart (String.append "User: "
                                       (String.concat "\n" text_lines))]
          end in
        if truthy (images msg) then
          match build_base64_images (default [] (images msg)) with
          | None => None
          | Some base64_images =>
              user_parts_from (parts ++ map ImagePart base64_images) rest
          end
        else user_parts_from parts rest
  end.

Definition _build_user_parts (messages : list Message)
    : option (list ContentPart) :=
  user_parts_from [] messages.

End Strip.

(** Python's white space among the ASCII characters: tab, line feed,
    vertical tab, form feed, carriage return, the four separators 28 to
    31, and the space. *)
Definition ascii_isspace (c : Ascii.ascii) : bool :=
  let n := Ascii.nat_of_ascii c in
  ((9 <=? n) && (n <=? 13) || (28 <=? n) && (n <=? 32))%nat.

End AIResponse.

(** ** [_build_required_placeholders] of [community_intern/ai/mock.py]

    A pydantic model is seen through its [model_fields], a dictionary from
    field names to field descriptions; of a description the function
    reads [is_required()] and [annotation], and of the annotation only
    whether it is one of the classes [str], [bool], [int], [float]. *)

Module MockAI.

Inductive Annotation :=
| AnnStr
| AnnBool
| AnnInt
| AnnFloat
| AnnOther.

Record FieldInfo := mkFieldInfo {
  is_required : bool;
  annotation : Annotation
}.

(** The values the function stores; [PyFloatZero] is the float [0.0]. *)
Inductive PyValue :=
| PyStr (s : string)
| PyBool (b : bool)
| PyInt (z : Z)
| PyFloatZero
| PyNone.

(** One iteration of the loop over [model.model_fields.items()]. *)
Definition placeholder_step (data : dict PyValue)
    (item : string * FieldInfo) : dict PyValue :=
  let '(name, field) := item in
  if negb (is_required field) then data
  else
    match annotation field with
    | AnnStr => PyDict.set data name (PyStr "mock")
    | AnnBool => PyDict.set data name (PyBool false)
    | AnnInt => PyDict.set data name (PyInt 0)
    | AnnFloat => PyDict.set data name PyFloatZero
    | AnnOther => PyDict.set data name PyNone
    end.

Definition _build_required_placeholders (model_fields : dict FieldInfo)
    : dict PyValue :=
  foldl placeholder_step [] model_fields.

End MockAI.

(** ** More inputs to evaluate the code on *)

Module FixtureExtras.
Import Fixture AIResponse.

(** The index of [Fixture.provider] with its first two entries swapped. *)
Definition swapped_provider : FileFolderProvider :=
  {| _sources_dir := ["kb"];
     _file_sources :=
       [("b.txt", ["kb"; "b.txt"]); ("a.txt", ["kb"; "a.txt"]);
        ("c.txt", ["kb"; "c.txt"]); ("d.txt", ["kb"; "d.txt"]);
        ("e.txt", ["kb"; "e.txt"]); ("page", ["kb"; "page"]);
        ("g.txt", ["kb"; "g.txt"])] |}.

(** A cache whose file records all carry their metadata. *)
Definition tidy_cache : CacheState :=
  {| sources := <["a.txt" := rec_a]> (<["page" := rec_page]> ∅) |}.

(** The record [init_record] creates for [g.txt], and the cache with it. *)
Definition created_g : CacheRecord :=
  {| source_type := "file"; content_hash := hash_text "new";
     summary_text := ""; last_indexed_at := format_rfc3339 T1;
     summary_pending := true;
     file := Some (mkFileMetadata "g.txt" 3 30) |}.

Definition cache_with_g : CacheState :=
  {| sources := <["g.txt" := created_g]> (sources cache) |}.

(** A tree with a file inside a directory whose name starts with a dot. *)
Definition dot_fs : FileSystem :=
  {| fs_root := Some (Dir [(".git", Dir [("config", File)])]);
     fs_stat := λ _, None;
     fs_read := λ _, ReadOSError |}.

(** An image conversion that always raises. *)
Definition failing_images (imgs : list ImageInput) : option (list string) :=
  None.

Definition user_hello : Message :=
  {| role := "user"; text := Some " hello "; attachments := None;
     images := None |}.

Definition bot_picture : Message :=
  {| role := "bot"; text := Some "see this";
     attachments := None;
     images := Some [mkImageInput (Some "cat.png")] |}.

Definition user_files : Message :=
  {| role := "user"; text := None;
     attachments := Some [mkAttachmentInput (Some "a.png") true;
                          mkAttachmentInput None false];
     images := None |}.

End FixtureExtras.

(** ** Facts about dictionaries *)

Module PyDictFacts.
Import PyDict.

Lemma get_set {V} (d : dict V) k v k' :
  get (set d k v) k' = if decide (k = k') then Some v else get d k'.
Proof.
  induction d as [|[k0 v0] d IH]; simpl.
  - done.
  - destruct (decide (k0 = k)) as [->|Hne]; simpl.
    + by destruct (decide (k = k')).
    + rewrite IH. destruct (decide (k0 = k')) as [->|]; [|done].
      by rewrite decide_False.
Qed.

Lemma get_None {V} (d : dict V) k : get d k = None ↔ k ∉ keys d.
Proof.
  unfold keys. induction d as [|[k0 v0] d IH]; simpl.
  - split; [intros _; apply not_elem_of_nil | done].
  - rewrite not_elem_of_cons. destruct (decide (k0 = k)) as [->|Hne].
    + split; [done | by intros [? _]].
    + rewrite IH. split; [intros ?; split; [congruence | done] | by intros [_ ?]].
Qed.

Lemma get_Some_elem {V} (d : dict V) k v : get d k = Some v → (k, v) ∈ d.
Proof.
  induction d as [|[k0 v0] d IH]; simpl; [done|].
  destruct (decide (k0 = k)) as [->|Hne].
  - intros [= ->]. apply list_elem_of_here.
  - intros H. apply list_elem_of_further. auto.
Qed.

Lemma get_Some_key {V} (d : dict V) k v : get d k = Some v → k ∈ keys d.
Proof.
  intros H. destruct (decide (k ∈ keys d)) as [|Hn]; [done|].
  apply get_None in Hn. congruence.
Qed.

Lemma elem_get {V} (d : dict V) k v : wf d → (k, v) ∈ d → get d k = Some v.
Proof.
  unfold wf, keys. induction d as [|[k0 v0] d IH]; simpl.
  - intros _ H. by apply elem_of_nil in H.
  - rewrite NoDup_cons. intros [Hk Hd] [Heq|Hin]%elem_of_cons.
    + simplify_eq. by rewrite decide_True.
    + destruct (decide (k0 = k)) as [->|Hne]; [|by apply IH].
      exfalso. apply Hk. apply list_elem_of_fmap. by exists (k, v).
Qed.

Lemma keys_set {V} (d : dict V) k v :
  keys (set d k v) = if decide (k ∈ keys d) then keys d else keys d ++ [k].
Proof.
  unfold keys. induction d as [|[k0 v0] d IH]; [done|].
  cbn [set]. destruct (decide (k0 = k)) as [->|Hne].
  - rewrite decide_True; [done | apply list_elem_of_here].
  - rewrite !fmap_cons, IH. cbn [fst].
    destruct (decide (k ∈ d.*1)) as [Hin|Hnin].
    + rewrite decide_True; [done | by apply list_elem_of_further].
    + rewrite decide_False; [done|].
      rewrite not_elem_of_cons. naive_solver.
Qed.

Lemma wf_nil {V} : wf (@nil (string * V)).
Proof. apply NoDup_nil_2. Qed.

Lemma wf_set {V} (d : dict V) k v : wf d → wf (set d k v).
Proof.
  unfold wf. rewrite keys_set. intros Hd. case_decide; [done|].
  apply NoDup_app. split_and!; [done | | apply NoDup_singleton].
  intros x Hx ->%list_elem_of_singleton. done.
Qed.

Lemma remove_absent {V} (d : dict V) k : k ∉ keys d → remove d k = d.
Proof.
  unfold remove, keys. induction d as [|[k0 v0] d IH]; [done|].
  rewrite fmap_cons, not_elem_of_cons. intros [Hne Hd]. simpl in Hne.
  rewrite filter_cons, decide_True by (simpl; congruence). by rewrite IH.
Qed.

Lemma wf_cons_inv {V} (d : dict V) k v :
  wf ((k, v) :: d) → (k ∉ keys d) ∧ wf d.
Proof. unfold wf, keys. simpl. by rewrite NoDup_cons. Qed.

End PyDictFacts.

(** ** Facts about [refresh] *)

Section RefreshFacts.

Variable hash_text : string → string.
Variable fs : FileSystem.

Implicit Types (st : RefreshState) (r : CacheRecord) (k : string)
  (p : Path) (items : dict Path).

Local Abbreviation step := (refresh_step hash_text fs).
Local Abbreviation run := (refresh_from hash_text fs).
Local Abbreviation step_outcome := (step_outcome hash_text fs).
Local Abbreviation short_circuits := (short_circuits fs).

Lemma evolves_refl r : evolves r r.
Proof. by constructor. Qed.

Lemma evolves_trans r1 r2 r3 : evolves r1 r2 → evolves r2 r3 → evolves r1 r3.
Proof.
  intros [A1 A2 A3 A4 A5 A6 A7] [B1 B2 B3 B4 B5 B6 B7]. constructor.
  - congruence.
  - congruence.
  - congruence.
  - auto.
  - intros Hne. destruct (decide (content_hash r3 = content_hash r2)) as [He|Hd].
    + apply B4, A5. congruence.
    + auto.
  - intros Hn. pose proof (A6 Hn) as E. subst r2. by apply B6.
  - intros Hn. pose proof (A7 Hn) as E. subst r2. by apply B7.
Qed.

Lemma file_updated_record r k stat h :
  file (updated_record r k stat h)
  = Some (mkFileMetadata k (st_size stat) (st_mtime_ns stat)).
Proof. unfold updated_record. by case_decide. Qed.

Lemma content_hash_updated_record r k stat h :
  content_hash (updated_record r k stat h) = h.
Proof.
  unfold updated_record. case_decide as H; simpl; [done|].
  destruct (decide (h = content_hash r)); [done|]. exfalso. apply H. by left.
Qed.

Lemma summary_pending_updated_record r k stat h :
  summary_pending (updated_record r k stat h) = true
  ↔ h ≠ content_hash r ∨ summary_pending r = true.
Proof.
  unfold updated_record. case_decide as H; simpl; [done|].
  split; [|done]. intros Hp. by right.
Qed.

Lemma updated_record_evolves r k stat h m :
  source_type r = "file" → file r = Some m →
  evolves r (updated_record r k stat h).
Proof.
  intros Ht Hm. constructor.
  - unfold updated_record. by case_decide.
  - unfold updated_record. by case_decide.
  - unfold updated_record. by case_decide.
  - intros Hp. apply summary_pending_updated_record. by right.
  - rewrite content_hash_updated_record. intros Hne.
    apply summary_pending_updated_record. by left.
  - done.
  - congruence.
Qed.

Lemma refresh_step_outcome st k p : step_outcome st k p (step st (k, p)).
Proof.
  unfold refresh_step.
  destruct (sources (rs_cache st) !! k) as [r|] eqn:Hr; [|by constructor].
  case_decide as Ht; [by constructor|].
  destruct (fs_stat fs p) as [stat|] eqn:Hs; [|by constructor].
  destruct (file r) as [m|] eqn:Hm; case_decide as Hfp;
    try (by constructor); try (exfalso; by apply Hfp).
  destruct (fs_read fs p) as [text| |] eqn:Hrd;
    [|by constructor|by constructor].
  eapply outcome_update; eauto.
  - intros (m' & Hm' & Hsz & Hmt). simplify_eq. by apply Hfp.
  - simpl. by rewrite <- !app_assoc.
Qed.

Lemma refresh_step_trace st k p :
  ∃ es, rs_trace (step st (k, p)) = rs_trace st ++ es
        ∧ Forall (λ e, event_source e = k) es.
Proof.
  unfold refresh_step.
  destruct (sources (rs_cache st) !! k) as [r|];
    [|exists []; by rewrite app_nil_r].
  case_decide; [exists []; by rewrite app_nil_r|].
  destruct (fs_stat fs p) as [stat|];
    [|exists [EvStat k p]; split; [done | by repeat constructor]].
  case_decide; [exists [EvStat k p]; split; [done | by repeat constructor]|].
  destruct (fs_read fs p) as [text| |]; simpl; rewrite <- ?app_assoc; simpl.
  - exists [EvStat k p; EvRead k p; EvHash k text].
    split; [done | by repeat constructor].
  - exists [EvStat k p; EvRead k p]. split; [done | by repeat constructor].
  - exists [EvStat k p; EvRead k p]. split; [done | by repeat constructor].
Qed.

Lemma refresh_step_short_circuit st k p r :
  record_at st k = Some r → source_type r = "file" → short_circuits r p →
  step st (k, p) = log (EvStat k p) st.
Proof.
  unfold record_at, short_circuits, refresh_step. intros -> Ht Hsc.
  rewrite decide_False by (intros Hn; by apply Hn).
  destruct (fs_stat fs p) as [stat|]; [|done].
  destruct Hsc as [->|(m & -> & Hsz & Hmt)].
  - by rewrite decide_True.
  - by rewrite decide_True.
Qed.

Lemma refresh_step_other st k p k' :
  k' ≠ k → record_at (step st (k, p)) k' = record_at st k'.
Proof.
  intros Hne. unfold record_at.
  destruct (refresh_step_outcome st k p) as [st' -> _|st' ? ? ? ? ? ? ? ? ? ? -> _ _];
    [done|].
  simpl. by rewrite lookup_insert_ne.
Qed.

Lemma refresh_step_evolves st k p k' r :
  record_at st k' = Some r →
  ∃ r', record_at (step st (k, p)) k' = Some r' ∧ evolves r r'.
Proof.
  intros Hr. destruct (decide (k' = k)) as [->|Hne].
  - unfold record_at in *.
    destruct (refresh_step_outcome st k p)
      as [st' -> _|st' r0 m stat text Hr0 Ht Hm _ _ _ -> _ _].
    + exists r. split; [done | apply evolves_refl].
    + unfold record_at in Hr0. simplify_eq. eexists. split.
      * simpl. apply lookup_insert_eq.
      * by eapply updated_record_evolves.
  - exists r. rewrite refresh_step_other by done.
    split; [done | apply evolves_refl].
Qed.

Lemma refresh_step_None st k p k' :
  record_at st k' = None → record_at (step st (k, p)) k' = None.
Proof.
  intros Hr. destruct (decide (k' = k)) as [->|Hne].
  - unfold record_at in *.
    destruct (refresh_step_outcome st k p)
      as [st' -> _|st' r0 m stat text Hr0 _ _ _ _ _ _ _ _]; [done|].
    unfold record_at in Hr0. congruence.
  - by rewrite refresh_step_other.
Qed.

Lemma refresh_from_cons st k p items :
  run st ((k, p) :: items) = run (step st (k, p)) items.
Proof. done. Qed.

Lemma refresh_from_other st items k :
  k ∉ PyDict.keys items → record_at (run st items) k = record_at st k.
Proof.
  revert st. induction items as [|[k0 p0] items IH]; intros st Hk; [done|].
  unfold PyDict.keys in Hk. rewrite fmap_cons, not_elem_of_cons in Hk.
  destruct Hk as [Hne Hk]. rewrite refresh_from_cons, IH by done.
  by apply refresh_step_other.
Qed.

Lemma refresh_from_trace st items :
  ∃ es, rs_trace (run st items) = rs_trace st ++ es
        ∧ Forall (λ e, event_source e ∈ PyDict.keys items) es.
Proof.
  revert st. induction items as [|[k0 p0] items IH]; intros st.
  - exists []. split; [by rewrite app_nil_r | constructor].
  - rewrite refresh_from_cons.
    destruct (IH (step st (k0, p0))) as (es2 & -> & H2).
    destruct (refresh_step_trace st k0 p0) as (es1 & -> & H1).
    exists (es1 ++ es2). split; [by rewrite app_assoc|].
    unfold PyDict.keys. rewrite fmap_cons. apply Forall_app. split.
    + eapply Forall_impl; [exact H1|]. simpl. intros e ->.
      apply list_elem_of_here.
    + eapply Forall_impl; [exact H2|]. simpl. intros e He.
      by apply list_elem_of_further.
Qed.

Lemma refresh_from_evolves st items k r :
  record_at st k = Some r →
  ∃ r', record_at (run st items) k = Some r' ∧ evolves r r'.
Proof.
  revert st r. induction items as [|[k0 p0] items IH]; intros st r Hr.
  - exists r. split; [done | apply evolves_refl].
  - rewrite refresh_from_cons.
    destruct (refresh_step_evolves st k0 p0 k r Hr) as (r1 & Hr1 & E1).
    destruct (IH _ _ Hr1) as (r2 & Hr2 & E2).
    exists r2. split; [done | by eapply evolves_trans].
Qed.

Lemma refresh_from_None st items k :
  record_at st k = None → record_at (run st items) k = None.
Proof.
  revert st. induction items as [|[k0 p0] items IH]; intros st Hr; [done|].
  rewrite refresh_from_cons. by apply IH, refresh_step_None.
Qed.

Lemma refresh_step_congr st1 st2 k p :
  same_result st1 st2 → same_result (step st1 (k, p)) (step st2 (k, p)).
Proof.
  intros [Hc Hf]. unfold refresh_step. rewrite Hc.
  destruct (sources (rs_cache st2) !! k) as [r|]; [|done].
  case_decide; [done|].
  destruct (fs_stat fs p) as [stat|]; [|done].
  case_decide; [done|].
  destruct (fs_read fs p) as [text| |]; [|done|done].
  split; simpl; [by rewrite Hc | done].
Qed.

Lemma refresh_from_congr st1 st2 items :
  same_result st1 st2 → same_result (run st1 items) (run st2 items).
Proof.
  revert st1 st2. induction items as [|[k p] items IH]; intros st1 st2 H.
  - done.
  - rewrite !refresh_from_cons. by apply IH, refresh_step_congr.
Qed.

(** A source whose iteration changes neither cache nor flag, whatever
    the rest of the loop state, can be left out of the index. *)
Lemma refresh_from_remove st items k p :
  PyDict.wf items → PyDict.get items k = Some p →
  (∀ st', record_at st' k = record_at st k →
          same_result (step st' (k, p)) st') →
  same_result (run st items) (run st (PyDict.remove items k)).
Proof.
  revert st. induction items as [|[k0 p0] items IH]; intros st Hwf Hget Hin.
  - done.
  - apply PyDictFacts.wf_cons_inv in Hwf as [Hk0 Hwf].
    simpl in Hget. unfold PyDict.remove. rewrite filter_cons.
    destruct (decide (k0 = k)) as [->|Hne].
    + simplify_eq. rewrite decide_False by (intros Hn; by apply Hn).
      fold (PyDict.remove items k).
      rewrite PyDictFacts.remove_absent by done.
      rewrite refresh_from_cons. by apply refresh_from_congr, Hin.
    + rewrite decide_True by done. fold (PyDict.remove items k).
      rewrite !refresh_from_cons. apply IH; [done..|].
      intros st' Hst'. apply Hin. rewrite Hst'.
      by apply refresh_step_other.
Qed.

(** With unique keys, the flag says whether some record differs. *)
Lemma refresh_from_changed st items :
  PyDict.wf items →
  rs_changed (run st items) = true
  ↔ rs_changed st = true
    ∨ ∃ k, record_at (run st items) k ≠ record_at st k.
Proof.
  revert st. induction items as [|[k p] items IH]; intros st Hwf.
  - simpl. split; [by left | intros [?|[k Hk]]; done].
  - apply PyDictFacts.wf_cons_inv in Hwf as [Hk Hwf].
    rewrite refresh_from_cons, (IH _ Hwf).
    assert (Hsame : ∀ k', k' ≠ k →
              record_at (step st (k, p)) k' = record_at st k')
      by (intros; by apply refresh_step_other).
    assert (Hfin : record_at (run (step st (k, p)) items) k
                   = record_at (step st (k, p)) k)
      by by apply refresh_from_other.
    destruct (refresh_step_outcome st k p)
      as [st' Hc Hf|st' r m stat text Hr Ht Hm Hs Hfp Hrd Hc Hf _].
    + assert (Hall : ∀ k', record_at st' k' = record_at st k')
        by (intros; unfold record_at; by rewrite Hc).
      rewrite Hf. split; (intros [?|[k' Hk']]; [by left | right]);
        exists k'; by rewrite ?Hall in *.
    + split; [intros _; right | intros _; by left].
      exists k. rewrite Hfin. unfold record_at at 1. rewrite Hc. simpl.
      rewrite lookup_insert_eq, Hr. intros [= Heq].
      apply Hfp. exists m. split; [done|].
      pose proof (file_updated_record r k stat (hash_text text)) as Hfile.
      rewrite Heq, Hm in Hfile. by simplify_eq.
Qed.

(** A source whose iteration ends at the fingerprint check keeps its
    record, and is neither read nor hashed. *)
Lemma refresh_from_short_circuit st items k p r :
  PyDict.wf items → PyDict.get items k = Some p →
  record_at st k = Some r → source_type r = "file" → short_circuits r p →
  record_at (run st items) k = Some r
  ∧ ∃ es, rs_trace (run st items) = rs_trace st ++ es
          ∧ Forall (λ e, event_source e = k → e = EvStat k p) es.
Proof.
  revert st. induction items as [|[k0 p0] items IH];
    intros st Hwf Hget Hr Ht Hsc; [done|].
  apply PyDictFacts.wf_cons_inv in Hwf as [Hk0 Hwf].
  simpl in Hget. rewrite refresh_from_cons.
  destruct (decide (k0 = k)) as [->|Hne].
  - simplify_eq. rewrite (refresh_step_short_circuit st k p r) by done.
    split.
    + by rewrite refresh_from_other.
    + destruct (refresh_from_trace (log (EvStat k p) st) items)
        as (es & -> & Hes).
      exists (EvStat k p :: es). split; [simpl; by rewrite <- app_assoc|].
      constructor; [done|]. eapply Forall_impl; [exact Hes|].
      simpl. intros e He Heq. by rewrite Heq in He.
  - destruct (IH (step st (k0, p0))) as (Hfin & es & -> & Hes); try done.
    { rewrite refresh_step_other; done. }
    split; [done|].
    destruct (refresh_step_trace st k0 p0) as (es0 & -> & Hes0).
    exists (es0 ++ es). split; [by rewrite app_assoc|].
    apply Forall_app. split; [|done].
    eapply Forall_impl; [exact Hes0|]. simpl. intros e He Heq. congruence.
Qed.

Lemma refresh_step_update st k p r m stat text :
  record_at st k = Some r → source_type r = "file" → file r = Some m →
  fs_stat fs p = Some stat →
  ¬ (size_bytes m = st_size stat ∧ mtime_ns m = st_mtime_ns stat) →
  fs_read fs p = ReadOk text →
  record_at (step st (k, p)) k
    = Some (updated_record r k stat (hash_text text))
  ∧ rs_changed (step st (k, p)) = true.
Proof.
  unfold record_at, refresh_step. intros -> Ht -> -> Hfp ->.
  rewrite decide_False by (intros Hn; by apply Hn).
  rewrite decide_False by done. simpl.
  by rewrite lookup_insert_eq.
Qed.

Lemma refresh_from_update st items k p r m stat text :
  PyDict.wf items → PyDict.get items k = Some p →
  record_at st k = Some r → source_type r = "file" → file r = Some m →
  fs_stat fs p = Some stat →
  ¬ (size_bytes m = st_size stat ∧ mtime_ns m = st_mtime_ns stat) →
  fs_read fs p = ReadOk text →
  record_at (run st items) k
    = Some (updated_record r k stat (hash_text text)).
Proof.
  revert st. induction items as [|[k0 p0] items IH];
    intros st Hwf Hget Hr Ht Hm Hs Hfp Hrd; [done|].
  apply PyDictFacts.wf_cons_inv in Hwf as [Hk0 Hwf].
  simpl in Hget. rewrite refresh_from_cons.
  destruct (decide (k0 = k)) as [->|Hne].
  - simplify_eq. rewrite refresh_from_other by done.
    by eapply refresh_step_update.
  - apply IH; try done. by rewrite refresh_step_other.
Qed.

(** A failing [stat], or a [read_text] that fails (for either reason),
    leaves cache and flag as they are. *)
Lemma refresh_step_failure st k p :
  fs_stat fs p = None ∨ fs_read fs p = ReadOSError
  ∨ fs_read fs p = ReadUnicodeDecodeError →
  same_result (step st (k, p)) st.
Proof.
  intros Hfail. unfold refresh_step.
  destruct (sources (rs_cache st) !! k) as [r|]; [|done].
  case_decide; [done|].
  destruct (fs_stat fs p) as [stat|]; [|done].
  case_decide; [done|].
  destruct Hfail as [?|[->| ->]]; done.
Qed.

End RefreshFacts.

(** ** The provider on the fixture *)

Module FixtureFacts.
Import Fixture.

Lemma provider_wf : PyDict.wf (_file_sources provider).
Proof. unfold PyDict.wf. apply (bool_decide_unpack _). by vm_compute. Defined.

Example refreshed_changed : rs_changed refreshed = true.
Proof. by vm_compute. Qed.

Example refreshed_a :
  sources (rs_cache refreshed) !! "a.txt"
  = Some (file_record (hash_text "hello!") true
            (Some (mkFileMetadata "a.txt" 6 200))).
Proof. by vm_compute. Qed.

Example refreshed_trace :
  rs_trace refreshed
  = [EvStat "a.txt" ["kb"; "a.txt"]; EvRead "a.txt" ["kb"; "a.txt"];
     EvHash "a.txt" "hello!";
     EvStat "b.txt" ["kb"; "b.txt"];
     EvStat "c.txt" ["kb"; "c.txt"]; EvRead "c.txt" ["kb"; "c.txt"];
     EvStat "d.txt" ["kb"; "d.txt"];
     EvStat "e.txt" ["kb"; "e.txt"]].
Proof. by vm_compute. Qed.

End FixtureFacts.

(** ** [refresh]: the claims *)

Section RefreshClaims.

Variable datetime : Type.
Variable hash_text : string → string.

Implicit Types (fs : FileSystem) (self : FileFolderProvider)
  (cache : CacheState) (now : datetime).

Lemma trace_only_stat (tr : list Event) k p :
  Forall (λ e, event_source e = k → e = EvStat k p) tr →
  (∀ p', EvRead k p' ∉ tr) ∧ (∀ text, EvHash k text ∉ tr).
Proof.
  rewrite Forall_forall. intros H.
  split; intros x Hin; by specialize (H _ Hin eq_refl).
Qed.

(** C1. A "file" record of a source in the provider's index whose stored
    size_bytes and mtime_ns equal the current stat result is left exactly
    as it is by refresh, and refresh neither reads the file nor hashes
    anything for that source, whatever a read of the file would return. *)
Theorem refresh_fingerprint_match_skips fs self cache now sid p r m stat :
  PyDict.wf (_file_sources self) →
  PyDict.get (_file_sources self) sid = Some p →
  sources cache !! sid = Some r →
  source_type r = "file" →
  file r = Some m →
  fs_stat fs p = Some stat →
  size_bytes m = st_size stat →
  mtime_ns m = st_mtime_ns stat →
  sources (rs_cache (refresh hash_text fs self cache now)) !! sid = Some r
  ∧ (∀ p', EvRead sid p' ∉ rs_trace (refresh hash_text fs self cache now))
  ∧ (∀ text,
       EvHash sid text ∉ rs_trace (refresh hash_text fs self cache now)).
Proof.
  intros Hwf Hget Hr Ht Hm Hs Hsz Hmt.
  destruct (refresh_from_short_circuit hash_text fs
              (mkRefreshState cache false []) (_file_sources self) sid p r)
    as (Hrec & es & Htr & Hes); try done.
  { unfold short_circuits. rewrite Hs. right. by exists m. }
  split; [exact Hrec|]. unfold refresh. rewrite Htr. simpl.
  by apply (trace_only_stat _ sid p).
Qed.

(** C2. A "file" record whose fingerprint differs from the current stat
    result and whose file is read successfully gets the new fingerprint in
    any case; it gets the new hash and summary_pending = true when the new
    hash differs from the stored one or the record was pending, and keeps
    both fields otherwise.  The value returned by refresh is true exactly
    when some record of the cache differs after the call. *)
Theorem refresh_reread_updates :
  (∀ fs self cache now sid p r m stat text,
     PyDict.wf (_file_sources self) →
     PyDict.get (_file_sources self) sid = Some p →
     sources cache !! sid = Some r →
     source_type r = "file" →
     file r = Some m →
     fs_stat fs p = Some stat →
     ¬ (size_bytes m = st_size stat ∧ mtime_ns m = st_mtime_ns stat) →
     fs_read fs p = ReadOk text →
     ∃ r',
       sources (rs_cache (refresh hash_text fs self cache now)) !! sid
         = Some r'
       ∧ file r'
         = Some (mkFileMetadata sid (st_size stat) (st_mtime_ns stat))
       ∧ (hash_text text ≠ content_hash r ∨ summary_pending r = true →
          content_hash r' = hash_text text ∧ summary_pending r' = true)
       ∧ (¬ (hash_text text ≠ content_hash r ∨ summary_pending r = true) →
          content_hash r' = content_hash r
          ∧ summary_pending r' = summary_pending r)
       ∧ source_type r' = source_type r
       ∧ summary_text r' = summary_text r
       ∧ last_indexed_at r' = last_indexed_at r)
  ∧ (∀ fs self cache now,
       PyDict.wf (_file_sources self) →
       rs_changed (refresh hash_text fs self cache now) = true
       ↔ ∃ k, sources (rs_cache (refresh hash_text fs self cache now)) !! k
              ≠ sources cache !! k).
Proof.
  split.
  - intros fs self cache now sid p r m stat text
      Hwf Hget Hr Ht Hm Hs Hfp Hrd.
    exists (updated_record r sid stat (hash_text text)). split.
    { by eapply (refresh_from_update hash_text fs
                   (mkRefreshState cache false [])). }
    unfold updated_record. case_decide as Hc; simpl.
    + by split_and!.
    + by split_and!.
  - intros fs self cache now Hwf.
    rewrite (refresh_from_changed hash_text fs
               (mkRefreshState cache false []) _ Hwf).
    simpl. split; [intros [?|?]; done | by right].
Qed.

(** C5. When the stat of a source fails, or reading it fails with an I/O
    error, refresh leaves the record of that source as it was, and cache
    and returned flag are those refresh produces for the remaining
    sources alone. *)
Theorem refresh_transient_failure_skips fs self cache now sid p :
  PyDict.wf (_file_sources self) →
  PyDict.get (_file_sources self) sid = Some p →
  fs_stat fs p = None ∨ fs_read fs p = ReadOSError →
  sources (rs_cache (refresh hash_text fs self cache now)) !! sid
    = sources cache !! sid
  ∧ rs_cache (refresh hash_text fs self cache now)
    = rs_cache (refresh hash_text fs (forget self sid) cache now)
  ∧ rs_changed (refresh hash_text fs self cache now)
    = rs_changed (refresh hash_text fs (forget self sid) cache now).
Proof.
  intros Hwf Hget Hfail.
  assert (Hsame : same_result
            (refresh hash_text fs self cache now)
            (refresh hash_text fs (forget self sid) cache now)).
  { apply (refresh_from_remove hash_text fs _ _ sid p); try done.
    intros st' _. apply refresh_step_failure. tauto. }
  destruct Hsame as [Hc Hf]. split; [|done].
  rewrite Hc. unfold refresh, forget. simpl.
  apply (refresh_from_other hash_text fs).
  unfold PyDict.remove, PyDict.keys.
  intros ((k & v) & -> & Hin%list_elem_of_filter)%list_elem_of_fmap.
  by destruct Hin as [Hne _].
Qed.

(** C6. refresh neither adds nor removes a record: the keys of
    cache.sources are the same before and after.  A source id with no
    record still has none, and the record of a source that is not in the
    provider's index, or whose source_type is not "file", is unchanged. *)
Theorem refresh_preserves_keys fs self cache now :
  dom (sources (rs_cache (refresh hash_text fs self cache now)))
    = dom (sources cache)
  ∧ (∀ k, sources cache !! k = None →
          sources (rs_cache (refresh hash_text fs self cache now)) !! k
            = None)
  ∧ (∀ k, k ∉ PyDict.keys (_file_sources self) →
          sources (rs_cache (refresh hash_text fs self cache now)) !! k
            = sources cache !! k)
  ∧ (∀ k r, sources cache !! k = Some r → source_type r ≠ "file" →
            sources (rs_cache (refresh hash_text fs self cache now)) !! k
              = Some r).
Proof.
  pose (st0 := mkRefreshState cache false []).
  assert (HNone : ∀ k, sources cache !! k = None →
            sources (rs_cache (refresh hash_text fs self cache now)) !! k
              = None).
  { intros k Hk.
    by apply (refresh_from_None hash_text fs st0). }
  assert (HSome : ∀ k r, sources cache !! k = Some r →
            ∃ r', sources (rs_cache (refresh hash_text fs self cache now))
                    !! k = Some r' ∧ evolves r r').
  { intros k r Hk.
    by apply (refresh_from_evolves hash_text fs st0). }
  split_and!.
  - apply set_eq. intros k. rewrite !elem_of_dom.
    destruct (sources cache !! k) as [r|] eqn:Hk.
    + destruct (HSome k r Hk) as (r' & -> & _). by split.
    + by rewrite (HNone k Hk).
  - exact HNone.
  - intros k Hk. by apply (refresh_from_other hash_text fs st0).
  - intros k r Hk Ht. destruct (HSome k r Hk) as (r' & -> & E).
    f_equal. by apply (ev_not_file _ _ E).
Qed.

(** C10. A "file" record without file metadata is compared with a
    fingerprint made from the stat result itself, so the comparison
    succeeds: refresh leaves the record as it is (the metadata stays
    absent), neither reads nor hashes for that source, and cache and
    returned flag are those of refresh without that source. *)
Theorem refresh_missing_metadata_skips fs self cache now sid p r :
  PyDict.wf (_file_sources self) →
  PyDict.get (_file_sources self) sid = Some p →
  sources cache !! sid = Some r →
  source_type r = "file" →
  file r = None →
  sources (rs_cache (refresh hash_text fs self cache now)) !! sid = Some r
  ∧ (∀ p', EvRead sid p' ∉ rs_trace (refresh hash_text fs self cache now))
  ∧ (∀ text,
       EvHash sid text ∉ rs_trace (refresh hash_text fs self cache now))
  ∧ rs_cache (refresh hash_text fs self cache now)
    = rs_cache (refresh hash_text fs (forget self sid) cache now)
  ∧ rs_changed (refresh hash_text fs self cache now)
    = rs_changed (refresh hash_text fs (forget self sid) cache now).
Proof.
  intros Hwf Hget Hr Ht Hm.
  assert (Hsc : short_circuits fs r p).
  { unfold short_circuits. destruct (fs_stat fs p); [by left | done]. }
  destruct (refresh_from_short_circuit hash_text fs
              (mkRefreshState cache false []) (_file_sources self) sid p r)
    as (Hrec & es & Htr & Hes); try done.
  split; [exact Hrec|].
  unfold refresh at 1 2. rewrite Htr. simpl.
  destruct (trace_only_stat es sid p Hes) as [H1 H2].
  split; [exact H1|]. split; [exact H2|].
  apply (refresh_from_remove hash_text fs _ _ sid p); try done.
  intros st' Hst'. simpl in Hst'.
  rewrite (refresh_step_short_circuit hash_text fs st' sid p r);
    try done.
  unfold record_at in *. by rewrite Hst'.
Qed.

End RefreshClaims.

(** ** [init_record] and sequences of calls: the claims *)

Section ProviderClaims.

Variable datetime : Type.
Variable hash_text : string → string.
Variable format_rfc3339 : datetime → string.

Implicit Types (fs : FileSystem) (self : FileFolderProvider)
  (cache : CacheState) (now : datetime)
  (cs : list (FileSystem * Call datetime)).

Local Abbreviation init_record' := (init_record hash_text format_rfc3339).

Lemma init_record_Some fs self sid now r :
  init_record' fs self sid now = Some r →
  ∃ p stat text,
    PyDict.get (_file_sources self) sid = Some p
    ∧ fs_stat fs p = Some stat
    ∧ fs_read fs p = ReadOk text
    ∧ r = {| source_type := "file";
             content_hash := hash_text text;
             summary_text := "";
             last_indexed_at := format_rfc3339 now;
             summary_pending := true;
             file := Some (mkFileMetadata sid
                             (st_size stat) (st_mtime_ns stat)) |}.
Proof.
  unfold init_record.
  destruct (PyDict.get (_file_sources self) sid) as [p|]; [|done].
  destruct (fs_stat fs p) as [stat|] eqn:Hs; [|done].
  destruct (fs_read fs p) as [text| |] eqn:Hrd; [|done|done].
  intros [= <-]. by exists p, stat, text.
Qed.

(** The cache after a sequence of provider calls holds, for every
    record it held before, a record that evolved from it. *)
Lemma run_calls_evolves cs (w : FileFolderProvider * CacheState) k r :
  sources w.2 !! k = Some r →
  ∃ r', sources (run_calls hash_text w cs).2 !! k = Some r' ∧ evolves r r'.
Proof.
  revert w r. induction cs as [|[fs c] cs IH]; intros [self cache] r Hr.
  - exists r. split; [done | apply evolves_refl].
  - unfold run_calls. simpl foldl. fold (run_calls (datetime:=datetime)).
    simpl in Hr. destruct c as [now|sid now|now|sid].
    + by apply IH.
    + by apply IH.
    + destruct (refresh_from_evolves hash_text fs
                  (mkRefreshState cache false []) (_file_sources self) k r Hr)
        as (r1 & Hr1 & E1).
      destruct (IH (self, rs_cache (refresh hash_text fs self cache now))
                  r1 Hr1) as (r2 & Hr2 & E2).
      exists r2. split; [done | by eapply evolves_trans].
    + by apply IH.
Qed.

(** C3. For a source id in the provider's index whose stat and read both
    succeed, init_record returns a record of source_type "file" with
    summary_pending true, an empty summary_text, the hash of the text
    read, and the size and modification time of the stat result; it
    returns nothing when the source id is not in the index, when the stat
    fails, when the read fails, and when the content cannot be decoded. *)
Theorem init_record_result fs self sid now :
  (∀ p stat text,
     PyDict.get (_file_sources self) sid = Some p →
     fs_stat fs p = Some stat →
     fs_read fs p = ReadOk text →
     init_record' fs self sid now
     = Some {| source_type := "file";
               content_hash := hash_text text;
               summary_text := "";
               last_indexed_at := format_rfc3339 now;
               summary_pending := true;
               file := Some (mkFileMetadata sid
                               (st_size stat) (st_mtime_ns stat)) |})
  ∧ (PyDict.get (_file_sources self) sid = None →
     init_record' fs self sid now = None)
  ∧ (∀ p, PyDict.get (_file_sources self) sid = Some p →
          fs_stat fs p = None
          ∨ fs_read fs p = ReadOSError
          ∨ fs_read fs p = ReadUnicodeDecodeError →
          init_record' fs self sid now = None).
Proof.
  unfold init_record. split_and!.
  - by intros p stat text -> -> ->.
  - by intros ->.
  - intros p -> Hfail. destruct (fs_stat fs p) as [stat|]; [|done].
    by destruct Hfail as [?|[-> | ->]].
Qed.

(** C4, as the code has it.  init_record returns nothing for a source
    whose content cannot be decoded, so such a source gets no record.
    When the content of a source with a record cannot be decoded, refresh
    leaves that record in the cache as it was, and cache and returned
    flag are those of refresh without that source. *)
Theorem undecodable_source_not_added_record_kept fs self cache now sid p :
  PyDict.get (_file_sources self) sid = Some p →
  fs_read fs p = ReadUnicodeDecodeError →
  init_record' fs self sid now = None
  ∧ (PyDict.wf (_file_sources self) →
     sources (rs_cache (refresh hash_text fs self cache now)) !! sid
       = sources cache !! sid
     ∧ rs_cache (refresh hash_text fs self cache now)
       = rs_cache (refresh hash_text fs (forget self sid) cache now)
     ∧ rs_changed (refresh hash_text fs self cache now)
       = rs_changed (refresh hash_text fs (forget self sid) cache now)).
Proof.
  intros Hget Hrd. split.
  - unfold init_record. rewrite Hget, Hrd. by destruct (fs_stat fs p).
  - intros Hwf.
    assert (Hsame : same_result
              (refresh hash_text fs self cache now)
              (refresh hash_text fs (forget self sid) cache now)).
    { apply (refresh_from_remove hash_text fs _ _ sid p); try done.
      intros st' _. apply refresh_step_failure. tauto. }
    destruct Hsame as [Hc Hf]. split; [|done].
    rewrite Hc. unfold refresh, forget. simpl.
    apply (refresh_from_other hash_text fs).
    unfold PyDict.remove, PyDict.keys.
    intros ((k & v) & -> & Hin%list_elem_of_filter)%list_elem_of_fmap.
    by destruct Hin as [Hne _].
Qed.

(** C7. A record created by init_record has summary_pending true; a
    record whose content_hash is changed by refresh has summary_pending
    true afterwards; and over any sequence of discover, init_record,
    refresh and load_text calls, under any filesystem conditions, a
    record whose summary_pending is true is still in the cache with
    summary_pending true. *)
Theorem summary_pending_never_cleared :
  (∀ fs self sid now r,
     init_record' fs self sid now = Some r → summary_pending r = true)
  ∧ (∀ fs self cache now k r r',
       sources cache !! k = Some r →
       sources (rs_cache (refresh hash_text fs self cache now)) !! k
         = Some r' →
       content_hash r' ≠ content_hash r → summary_pending r' = true)
  ∧ (∀ (w : FileFolderProvider * CacheState) cs k r,
       sources w.2 !! k = Some r → summary_pending r = true →
       ∃ r', sources (run_calls hash_text w cs).2 !! k = Some r'
             ∧ summary_pending r' = true).
Proof.
  split_and!.
  - intros fs self sid now r (p & stat & text & _ & _ & _ & ->)%init_record_Some.
    done.
  - intros fs self cache now k r r' Hr Hr' Hne.
    destruct (refresh_from_evolves hash_text fs
                (mkRefreshState cache false []) (_file_sources self) k r Hr)
      as (r1 & Hr1 & E).
    unfold refresh in Hr'. unfold record_at in Hr1. simplify_eq.
    by apply (ev_hash_pending _ _ E).
  - intros w cs k r Hr Hp.
    destruct (run_calls_evolves cs w k r Hr) as (r' & Hr' & E).
    exists r'. split; [done | by apply (ev_pending_kept _ _ E)].
Qed.

(** C8, as the code has it.  init_record stamps the record it creates
    with the formatted time of the call.  No provider call changes the
    last_indexed_at of a record in the cache: over any sequence of
    discover, init_record, refresh and load_text calls the record is
    still there with the last_indexed_at it had (so it never goes back,
    and an examination by refresh does not advance it). *)
Theorem last_indexed_at_set_once :
  (∀ fs self sid now r,
     init_record' fs self sid now = Some r →
     last_indexed_at r = format_rfc3339 now)
  ∧ (∀ (w : FileFolderProvider * CacheState) cs k r,
       sources w.2 !! k = Some r →
       ∃ r', sources (run_calls hash_text w cs).2 !! k = Some r'
             ∧ last_indexed_at r' = last_indexed_at r).
Proof.
  split.
  - intros fs self sid now r (p & stat & text & _ & _ & _ & ->)%init_record_Some.
    done.
  - intros w cs k r Hr.
    destruct (run_calls_evolves cs w k r Hr) as (r' & Hr' & E).
    exists r'. split; [done | by apply (ev_last_indexed_at _ _ E)].
Qed.

End ProviderClaims.

(** ** Facts about [discover] *)

Section DiscoverFacts.

Implicit Types (root p rel : Path) (n : Node) (k : string).

(** Induction on trees, with the hypothesis for every entry of a
    directory. *)
Lemma Node_ind_entries (P : Node → Prop) :
  P File → P Other →
  (∀ entries, Forall (λ e, P e.2) entries → P (Dir entries)) →
  ∀ n, P n.
Proof.
  intros HF HO HD.
  fix F 1. intros [|entries|]; [exact HF | | exact HO].
  apply HD. induction entries as [|e entries IH]; constructor.
  - apply F.
  - exact IH.
Qed.

Lemma rglob_below_1 tree : ∀ dir p n,
  (p, n) ∈ rglob dir tree → ∃ rel, p = dir ++ rel ∧ below tree rel n.
Proof.
  induction tree as [| |entries IH] using Node_ind_entries; intros dir p n;
    simpl; try (intros H; by apply elem_of_nil in H).
  rewrite elem_of_app, !list_elem_of_In, in_map_iff, in_flat_map.
  rewrite Forall_forall in IH.
  intros [([c child] & [= <- <-] & Hin)|([c child] & Hin & Hsub)].
  - exists [c]. split; [done|]. constructor. by apply list_elem_of_In.
  - apply list_elem_of_In in Hin, Hsub. simpl in Hsub.
    destruct (IH _ Hin _ _ _ Hsub) as (rel & -> & Hb).
    exists (c :: rel). split; [by rewrite <- app_assoc|].
    by eapply below_deeper.
Qed.

Lemma rglob_below_2 tree rel n :
  below tree rel n → ∀ dir, (dir ++ rel, n) ∈ rglob dir tree.
Proof.
  induction 1 as [entries c node Hin|entries c child rel node Hin Hb IH];
    intros dir; simpl; rewrite elem_of_app, !list_elem_of_In,
                         in_map_iff, in_flat_map.
  - left. exists (c, node). split; [done | by apply list_elem_of_In].
  - right. exists (c, child). split; [by apply list_elem_of_In|].
    apply list_elem_of_In. simpl. specialize (IH (dir ++ [c])).
    by rewrite <- app_assoc in IH.
Qed.

Lemma below_nonempty tree rel n : below tree rel n → rel ≠ [].
Proof. by destruct 1. Qed.

Lemma relative_to_app root rel : relative_to (root ++ rel) root = Some rel.
Proof.
  induction root as [|c root IH]; simpl; [by destruct rel|].
  by rewrite decide_True.
Qed.

Lemma name_app root rel : rel ≠ [] → name (root ++ rel) = name rel.
Proof.
  unfold name. intros Hne. induction root as [|c root IH]; [done|].
  simpl. destruct (root ++ rel) eqn:E; [|done].
  by apply app_eq_nil in E as [_ ->].
Qed.

Lemma is_file_true n : is_file n = true ↔ n = File.
Proof. by destruct n. Qed.

(** The entries the walk accepts are the regular files below the root
    whose name does not start with a dot. *)
Lemma accepted_rglob root tree rel :
  (∃ e, e ∈ rglob root tree ∧ accepted root e rel)
  ↔ below tree rel File ∧ startswith (name rel) "." = false.
Proof.
  split.
  - intros ([p n] & Hin & Hf & Hdot & Hrel). simpl in *.
    apply rglob_below_1 in Hin as (rel' & -> & Hb).
    rewrite relative_to_app in Hrel. simplify_eq.
    apply is_file_true in Hf as ->.
    rewrite name_app in Hdot by by eapply below_nonempty. done.
  - intros [Hb Hdot]. exists (root ++ rel, File). split.
    + by apply rglob_below_2.
    + unfold accepted. simpl. rewrite relative_to_app.
      rewrite name_app by by eapply below_nonempty. done.
Qed.

Local Abbreviation walk root := (foldl (discover_step root)).

Lemma discover_step_skip root acc e :
  (∀ rel, ¬ accepted root e rel) → discover_step root acc e = acc.
Proof.
  destruct e as [p n]. unfold accepted, discover_step. simpl. intros H.
  destruct (is_file n); [|done]. simpl.
  destruct (startswith (name p) "."); [done|].
  destruct (relative_to p root) as [rel|]; [|done].
  by destruct (H rel).
Qed.

Lemma discover_step_accept root acc e rel :
  accepted root e rel →
  discover_step root acc e
  = (PyDict.set acc.1 (as_posix rel) "file",
     PyDict.set acc.2 (as_posix rel) e.1).
Proof.
  destruct e as [p n]. unfold accepted, discover_step. simpl.
  by intros (-> & -> & ->).
Qed.

Lemma accepted_dec root e :
  (∃ rel, accepted root e rel) ∨ (∀ rel, ¬ accepted root e rel).
Proof.
  destruct e as [p n]. unfold accepted. simpl.
  destruct (is_file n); [|right; by intros ? [? _]].
  destruct (startswith (name p) "."); [right; by intros ? (_ & ? & _)|].
  destruct (relative_to p root) as [rel|]; [left; by exists rel|].
  right. by intros ? (_ & _ & ?).
Qed.

(** The loop of [discover] keeps every value of [sources] at "file". *)
Lemma discover_step_values root acc e :
  (∀ k v, PyDict.get acc.1 k = Some v → v = "file") →
  ∀ k v, PyDict.get (discover_step root acc e).1 k = Some v → v = "file".
Proof.
  intros Hacc k v. destruct (accepted_dec root e) as [[rel Ha]|Hno].
  - rewrite (discover_step_accept _ _ _ _ Ha). simpl.
    rewrite PyDictFacts.get_set. case_decide; [congruence | apply Hacc].
  - rewrite (discover_step_skip _ _ _ Hno). apply Hacc.
Qed.

(** The loop of [discover]: what [sources] holds in the end. *)
Lemma walk_sources root (l : list (Path * Node)) acc k v :
  (∀ k v, PyDict.get acc.1 k = Some v → v = "file") →
  PyDict.get (walk root acc l).1 k = Some v
  ↔ v = "file"
    ∧ ((∃ e rel, e ∈ l ∧ accepted root e rel ∧ k = as_posix rel)
       ∨ PyDict.get acc.1 k = Some "file").
Proof.
  revert acc. induction l as [|e l IH]; intros acc Hacc.
  - simpl. split.
    + intros H. pose proof (Hacc _ _ H) as ->. split; [done | by right].
    + intros [-> [(e & rel & Hin & _)|H]]; [|done].
      by apply elem_of_nil in Hin.
  - simpl foldl. rewrite IH by by apply discover_step_values.
    clear IH. split; intros [-> H]; (split; [done|]).
    + destruct H as [(e' & rel & Hin & Ha & ->)|H].
      { left. exists e', rel. split; [by apply list_elem_of_further | done]. }
      destruct (accepted_dec root e) as [[rel Ha]|Hno].
      * rewrite (discover_step_accept _ _ _ _ Ha) in H. simpl in H.
        rewrite PyDictFacts.get_set in H. case_decide as Hk; [|by right].
        left. exists e, rel. split; [apply list_elem_of_here | done].
      * rewrite (discover_step_skip _ _ _ Hno) in H. by right.
    + destruct H as [(e' & rel & [->|Hin]%elem_of_cons & Ha & ->)|H].
      * right. rewrite (discover_step_accept _ _ _ _ Ha). simpl.
        rewrite PyDictFacts.get_set. by rewrite decide_True.
      * left. by exists e', rel.
      * right. destruct (accepted_dec root e) as [[rel Ha]|Hno].
        -- rewrite (discover_step_accept _ _ _ _ Ha). simpl.
           rewrite PyDictFacts.get_set. by case_decide.
        -- by rewrite (discover_step_skip _ _ _ Hno).
Qed.

(** The index holds the same keys, in the same order, and they are
    unique. *)
Lemma walk_index root (l : list (Path * Node)) acc :
  PyDict.keys acc.1 = PyDict.keys acc.2 → PyDict.wf acc.2 →
  PyDict.keys (walk root acc l).1 = PyDict.keys (walk root acc l).2
  ∧ PyDict.wf (walk root acc l).2.
Proof.
  revert acc. induction l as [|e l IH]; intros acc Hk Hwf; [done|].
  simpl foldl. apply IH.
  - destruct (accepted_dec root e) as [[rel Ha]|Hno].
    + rewrite (discover_step_accept _ _ _ _ Ha). simpl.
      by rewrite !PyDictFacts.keys_set, Hk.
    + by rewrite (discover_step_skip _ _ _ Hno).
  - destruct (accepted_dec root e) as [[rel Ha]|Hno].
    + rewrite (discover_step_accept _ _ _ _ Ha). simpl.
      by apply PyDictFacts.wf_set.
    + by rewrite (discover_step_skip _ _ _ Hno).
Qed.

(** Every path of the index is the root followed by the relative path
    its key spells. *)
Lemma walk_paths root (l : list (Path * Node)) acc k p :
  PyDict.get (walk root acc l).2 k = Some p →
  (∃ e rel, e ∈ l ∧ accepted root e rel ∧ k = as_posix rel ∧ p = e.1)
  ∨ PyDict.get acc.2 k = Some p.
Proof.
  revert acc. induction l as [|e l IH]; intros acc; [by right|].
  simpl foldl. intros [(e' & rel & Hin & Ha & -> & ->)|H]%IH.
  - left. exists e', rel. split; [by apply list_elem_of_further | done].
  - destruct (accepted_dec root e) as [[rel Ha]|Hno].
    + rewrite (discover_step_accept _ _ _ _ Ha) in H. simpl in H.
      rewrite PyDictFacts.get_set in H. case_decide as Hk; [|by right].
      simplify_eq. left. exists e, rel.
      split; [apply list_elem_of_here | done].
    + rewrite (discover_step_skip _ _ _ Hno) in H. by right.
Qed.

End DiscoverFacts.

(** ** [discover]: the claim *)

Section DiscoverClaims.

Variable datetime : Type.

Implicit Types (fs : FileSystem) (self : FileFolderProvider) (now : datetime).

(** The index [discover] leaves in the provider has unique keys, the keys
    of the mapping it returns, and maps each to the path under the root
    that the key spells. *)
Lemma discover_index fs self now :
  PyDict.wf (_file_sources (discover fs self now).1)
  ∧ PyDict.keys (_file_sources (discover fs self now).1)
    = PyDict.keys (discover fs self now).2
  ∧ ∀ k p, PyDict.get (_file_sources (discover fs self now).1) k = Some p →
           ∃ rel, p = _sources_dir self ++ rel ∧ k = as_posix rel.
Proof.
  unfold discover. destruct (fs_root fs) as [tree|]; simpl.
  - destruct (walk_index (_sources_dir self)
                (rglob (_sources_dir self) tree) ([], []))
      as [Hk Hwf]; [done | apply PyDictFacts.wf_nil |].
    split; [done|]. split; [done|].
    intros k p [(e & rel & Hin & Ha & -> & ->)|H]%walk_paths; [|done].
    destruct e as [p n]. apply rglob_below_1 in Hin as (rel' & -> & _).
    destruct Ha as (_ & _ & Hrel). simpl in Hrel.
    rewrite relative_to_app in Hrel. simplify_eq. by exists rel.
  - split; [apply PyDictFacts.wf_nil|]. split; [done|]. by intros k p.
Qed.

(** C9. discover returns the mapping whose keys are the root-relative
    paths, joined with "/", of the regular files below the root whose name
    does not start with ".", each mapped to "file", and nothing else; when
    the root does not exist it returns the empty mapping (and empties the
    index) without an error. *)
Theorem discover_result fs self now :
  (fs_root fs = None →
   (discover fs self now).2 = []
   ∧ _file_sources (discover fs self now).1 = [])
  ∧ (∀ tree, fs_root fs = Some tree →
       ∀ k v, PyDict.get (discover fs self now).2 k = Some v
              ↔ v = "file"
                ∧ ∃ rel, below tree rel File
                         ∧ startswith (name rel) "." = false
                         ∧ k = as_posix rel).
Proof.
  unfold discover. split.
  - by intros ->.
  - intros tree -> k v. simpl. rewrite walk_sources by done. simpl.
    split; intros [-> H]; (split; [done|]).
    + destruct H as [(e & rel & Hin & Ha & ->)|H]; [|done].
      exists rel. split_and!; [| |done];
        by apply (accepted_rglob (_sources_dir self) tree rel); exists e.
    + destruct H as (rel & Hb & Hdot & ->). left.
      destruct (proj2 (accepted_rglob (_sources_dir self) tree rel))
        as (e & Hin & Ha); [done|].
      by exists e, rel.
Qed.

End DiscoverClaims.

(** ** The provider on the fixture: [discover] *)

Module FixtureDiscover.
Import Fixture.

Example discovered :
  (discover fs (mkProvider ["kb"] []) T1).2
  = [("a.txt", "file"); ("b.txt", "file"); ("c.txt", "file");
     ("d.txt", "file"); ("e.txt", "file"); ("page", "file");
     ("g.txt", "file"); ("sub/x.md", "file"); ("sub/.git/y", "file")].
Proof. by vm_compute. Qed.

Example discovered_index :
  PyDict.get (_file_sources (discover fs (mkProvider ["kb"] []) T1).1)
    "sub/x.md"
  = Some ["kb"; "sub"; "x.md"].
Proof. by vm_compute. Qed.

Example init_record_new :
  init_record hash_text format_rfc3339 fs provider "g.txt" T1
  = Some {| source_type := "file"; content_hash := "H(new)";
            summary_text := ""; last_indexed_at := T1;
            summary_pending := true;
            file := Some (mkFileMetadata "g.txt" 3 30) |}.
Proof. by vm_compute. Qed.

Example init_record_undecodable :
  init_record hash_text format_rfc3339 fs provider "c.txt" T1 = None.
Proof. by vm_compute. Qed.

End FixtureDiscover.

(** ** The claims on the fixture *)

(** Finds a named entry in a directory listing. *)
Ltac find_entry :=
  first [apply list_elem_of_here | apply list_elem_of_further; find_entry].

Lemma refresh_fingerprint_match_skips_witness :
  fs_read Fixture.fs ["kb"; "b.txt"] = ReadOk "WORLD"
  ∧ sources (rs_cache Fixture.refreshed) !! "b.txt" = Some Fixture.rec_b
  ∧ (∀ p', EvRead "b.txt" p' ∉ rs_trace Fixture.refreshed)
  ∧ (∀ text, EvHash "b.txt" text ∉ rs_trace Fixture.refreshed).
Proof.
  split; [reflexivity|].
  apply (refresh_fingerprint_match_skips Fixture.datetime Fixture.hash_text
           Fixture.fs Fixture.provider Fixture.cache Fixture.T1
           "b.txt" ["kb"; "b.txt"] Fixture.rec_b
           (mkFileMetadata "b.txt" 5 100) (mkStat 5 100)).
  - apply (bool_decide_unpack _). vm_compute. exact I.
  - vm_compute. reflexivity.
  - vm_compute. reflexivity.
  - reflexivity.
  - reflexivity.
  - vm_compute. reflexivity.
  - reflexivity.
  - reflexivity.
Defined.

Lemma refresh_reread_updates_witness :
  (∃ r',
     sources (rs_cache Fixture.refreshed) !! "a.txt" = Some r'
     ∧ file r' = Some (mkFileMetadata "a.txt" 6 200)
     ∧ (Fixture.hash_text "hello!" ≠ content_hash Fixture.rec_a
        ∨ summary_pending Fixture.rec_a = true →
        content_hash r' = Fixture.hash_text "hello!"
        ∧ summary_pending r' = true)
     ∧ (¬ (Fixture.hash_text "hello!" ≠ content_hash Fixture.rec_a
           ∨ summary_pending Fixture.rec_a = true) →
        content_hash r' = content_hash Fixture.rec_a
        ∧ summary_pending r' = summary_pending Fixture.rec_a)
     ∧ source_type r' = source_type Fixture.rec_a
     ∧ summary_text r' = summary_text Fixture.rec_a
     ∧ last_indexed_at r' = last_indexed_at Fixture.rec_a)
  ∧ (rs_changed Fixture.refreshed = true
     ↔ ∃ k, sources (rs_cache Fixture.refreshed) !! k
            ≠ sources Fixture.cache !! k).
Proof.
  split.
  - apply (proj1 (refresh_reread_updates Fixture.datetime Fixture.hash_text)
             Fixture.fs Fixture.provider Fixture.cache Fixture.T1
             "a.txt" ["kb"; "a.txt"] Fixture.rec_a
             (mkFileMetadata "a.txt" 5 100) (mkStat 6 200) "hello!").
    + apply (bool_decide_unpack _). vm_compute. exact I.
    + vm_compute. reflexivity.
    + vm_compute. reflexivity.
    + reflexivity.
    + reflexivity.
    + vm_compute. reflexivity.
    + simpl. lia.
    + vm_compute. reflexivity.
  - apply (proj2 (refresh_reread_updates Fixture.datetime Fixture.hash_text)
             Fixture.fs Fixture.provider Fixture.cache Fixture.T1).
    apply (bool_decide_unpack _). vm_compute. exact I.
Defined.

Lemma init_record_result_witness :
  init_record Fixture.hash_text Fixture.format_rfc3339
    Fixture.fs Fixture.provider "g.txt" Fixture.T1
  = Some {| source_type := "file";
            content_hash := Fixture.hash_text "new";
            summary_text := "";
            last_indexed_at := Fixture.format_rfc3339 Fixture.T1;
            summary_pending := true;
            file := Some (mkFileMetadata "g.txt" 3 30) |}
  ∧ init_record Fixture.hash_text Fixture.format_rfc3339
      Fixture.fs Fixture.provider "missing.txt" Fixture.T1 = None
  ∧ init_record Fixture.hash_text Fixture.format_rfc3339
      Fixture.fs Fixture.provider "d.txt" Fixture.T1 = None.
Proof.
  split_and!.
  - apply (proj1 (init_record_result Fixture.datetime Fixture.hash_text
                    Fixture.format_rfc3339 Fixture.fs Fixture.provider
                    "g.txt" Fixture.T1)
             ["kb"; "g.txt"] (mkStat 3 30) "new").
    + vm_compute. reflexivity.
    + vm_compute. reflexivity.
    + vm_compute. reflexivity.
  - apply (proj1 (proj2 (init_record_result Fixture.datetime
                           Fixture.hash_text Fixture.format_rfc3339
                           Fixture.fs Fixture.provider
                           "missing.txt" Fixture.T1))).
    vm_compute. reflexivity.
  - apply (proj2 (proj2 (init_record_result Fixture.datetime
                           Fixture.hash_text Fixture.format_rfc3339
                           Fixture.fs Fixture.provider "d.txt" Fixture.T1))
             ["kb"; "d.txt"]).
    + vm_compute. reflexivity.
    + left. vm_compute. reflexivity.
Defined.

Lemma undecodable_source_not_added_record_kept_witness :
  init_record Fixture.hash_text Fixture.format_rfc3339
    Fixture.fs Fixture.provider "c.txt" Fixture.T1 = None
  ∧ (PyDict.wf (_file_sources Fixture.provider) →
     sources (rs_cache Fixture.refreshed) !! "c.txt"
       = sources Fixture.cache !! "c.txt"
     ∧ rs_cache Fixture.refreshed
       = rs_cache (refresh Fixture.hash_text Fixture.fs
                     (forget Fixture.provider "c.txt")
                     Fixture.cache Fixture.T1)
     ∧ rs_changed Fixture.refreshed
       = rs_changed (refresh Fixture.hash_text Fixture.fs
                       (forget Fixture.provider "c.txt")
                       Fixture.cache Fixture.T1)).
Proof.
  apply (undecodable_source_not_added_record_kept Fixture.datetime
           Fixture.hash_text Fixture.format_rfc3339 Fixture.fs
           Fixture.provider Fixture.cache Fixture.T1
           "c.txt" ["kb"; "c.txt"]).
  - vm_compute. reflexivity.
  - vm_compute. reflexivity.
Defined.

Lemma refresh_transient_failure_skips_witness :
  fs_stat Fixture.fs ["kb"; "d.txt"] = None
  ∧ sources (rs_cache Fixture.refreshed) !! "d.txt"
    = sources Fixture.cache !! "d.txt"
  ∧ rs_cache Fixture.refreshed
    = rs_cache (refresh Fixture.hash_text Fixture.fs
                  (forget Fixture.provider "d.txt")
                  Fixture.cache Fixture.T1)
  ∧ rs_changed Fixture.refreshed
    = rs_changed (refresh Fixture.hash_text Fixture.fs
                    (forget Fixture.provider "d.txt")
                    Fixture.cache Fixture.T1).
Proof.
  split; [reflexivity|].
  apply (refresh_transient_failure_skips Fixture.datetime Fixture.hash_text
           Fixture.fs Fixture.provider Fixture.cache Fixture.T1
           "d.txt" ["kb"; "d.txt"]).
  - apply (bool_decide_unpack _). vm_compute. exact I.
  - vm_compute. reflexivity.
  - left. vm_compute. reflexivity.
Defined.

Lemma refresh_preserves_keys_witness :
  sources (rs_cache Fixture.refreshed) !! "page" = Some Fixture.rec_page
  ∧ sources (rs_cache Fixture.refreshed) !! "g.txt" = None.
Proof.
  destruct (refresh_preserves_keys Fixture.datetime Fixture.hash_text
              Fixture.fs Fixture.provider Fixture.cache Fixture.T1)
    as (_ & HNone & _ & Hother).
  split.
  - apply Hother.
    + vm_compute. reflexivity.
    + vm_compute. discriminate.
  - apply HNone. vm_compute. reflexivity.
Defined.

Lemma summary_pending_never_cleared_witness :
  summary_pending
    {| source_type := "file"; content_hash := Fixture.hash_text "new";
       summary_text := "";
       last_indexed_at := Fixture.format_rfc3339 Fixture.T1;
       summary_pending := true;
       file := Some (mkFileMetadata "g.txt" 3 30) |} = true
  ∧ summary_pending
      (Fixture.file_record (Fixture.hash_text "hello!") true
         (Some (mkFileMetadata "a.txt" 6 200))) = true
  ∧ ∃ r', sources
            (run_calls Fixture.hash_text (Fixture.provider, Fixture.cache)
               [(Fixture.fs, CallDiscover Fixture.T1);
                (Fixture.fs, CallInitRecord "g.txt" Fixture.T1);
                (Fixture.fs, CallRefresh Fixture.T1);
                (Fixture.fs, CallLoadText "c.txt")]).2 !! "c.txt" = Some r'
          ∧ summary_pending r' = true.
Proof.
  destruct (summary_pending_never_cleared Fixture.datetime Fixture.hash_text
              Fixture.format_rfc3339) as (Hinit & Hhash & Hseq).
  split_and!.
  - apply (Hinit Fixture.fs Fixture.provider "g.txt" Fixture.T1).
    vm_compute. reflexivity.
  - apply (Hhash Fixture.fs Fixture.provider Fixture.cache Fixture.T1
             "a.txt" Fixture.rec_a).
    + vm_compute. reflexivity.
    + vm_compute. reflexivity.
    + vm_compute. discriminate.
  - apply (Hseq (Fixture.provider, Fixture.cache) _ "c.txt" Fixture.rec_c).
    + vm_compute. reflexivity.
    + reflexivity.
Defined.

Lemma last_indexed_at_set_once_witness :
  last_indexed_at
    {| source_type := "file"; content_hash := Fixture.hash_text "new";
       summary_text := "";
       last_indexed_at := Fixture.format_rfc3339 Fixture.T1;
       summary_pending := true;
       file := Some (mkFileMetadata "g.txt" 3 30) |}
  = Fixture.format_rfc3339 Fixture.T1
  ∧ ∃ r', sources
            (run_calls Fixture.hash_text (Fixture.provider, Fixture.cache)
               [(Fixture.fs, CallDiscover Fixture.T1);
                (Fixture.fs, CallRefresh Fixture.T1)]).2 !! "a.txt" = Some r'
          ∧ last_indexed_at r' = last_indexed_at Fixture.rec_a.
Proof.
  destruct (last_indexed_at_set_once Fixture.datetime Fixture.hash_text
              Fixture.format_rfc3339) as (Hinit & Hseq).
  split.
  - apply (Hinit Fixture.fs Fixture.provider "g.txt" Fixture.T1).
    vm_compute. reflexivity.
  - apply (Hseq (Fixture.provider, Fixture.cache) _ "a.txt" Fixture.rec_a).
    vm_compute. reflexivity.
Defined.

Lemma discover_result_witness :
  PyDict.get (discover Fixture.fs (mkProvider ["kb"] []) Fixture.T1).2
    "sub/.git/y" = Some "file"
  ∧ PyDict.get (discover Fixture.fs (mkProvider ["kb"] []) Fixture.T1).2
      ".hidden" = None.
Proof.
  pose (tree := Dir [("a.txt", File); ("b.txt", File); ("c.txt", File);
                     ("d.txt", File); ("e.txt", File); ("page", File);
                     ("g.txt", File); (".hidden", File);
                     ("sub", Dir [("x.md", File);
                                  (".git", Dir [("y", File)]);
                                  ("pipe", Other)])]).
  pose proof (proj2 (discover_result Fixture.datetime Fixture.fs
                       (mkProvider ["kb"] []) Fixture.T1) tree eq_refl)
    as Hd.
  split.
  - apply Hd. split; [reflexivity|]. exists ["sub"; ".git"; "y"].
    split_and!; [|reflexivity|reflexivity].
    eapply below_deeper; [find_entry|].
    eapply below_deeper; [find_entry|].
    apply below_entry. find_entry.
  - vm_compute. reflexivity.
Defined.

Lemma refresh_missing_metadata_skips_witness :
  fs_read Fixture.fs ["kb"; "e.txt"] = ReadOk "e, edited"
  ∧ sources (rs_cache Fixture.refreshed) !! "e.txt" = Some Fixture.rec_e
  ∧ (∀ p', EvRead "e.txt" p' ∉ rs_trace Fixture.refreshed)
  ∧ (∀ text, EvHash "e.txt" text ∉ rs_trace Fixture.refreshed)
  ∧ rs_cache Fixture.refreshed
    = rs_cache (refresh Fixture.hash_text Fixture.fs
                  (forget Fixture.provider "e.txt")
                  Fixture.cache Fixture.T1)
  ∧ rs_changed Fixture.refreshed
    = rs_changed (refresh Fixture.hash_text Fixture.fs
                    (forget Fixture.provider "e.txt")
                    Fixture.cache Fixture.T1).
Proof.
  split; [reflexivity|].
  apply (refresh_missing_metadata_skips Fixture.datetime Fixture.hash_text
           Fixture.fs Fixture.provider Fixture.cache Fixture.T1
           "e.txt" ["kb"; "e.txt"] Fixture.rec_e).
  - apply (bool_decide_unpack _). vm_compute. exact I.
  - vm_compute. reflexivity.
  - vm_compute. reflexivity.
  - reflexivity.
  - reflexivity.
Defined.

(** C4, as stated, fails: [c.txt] has a record and its content is no
    longer valid UTF-8; refresh attempts the read, and the record is in the
    cache after the call, unchanged. *)
Lemma refresh_keeps_undecodable_record :
  PyDict.get (_file_sources Fixture.provider) "c.txt" = Some ["kb"; "c.txt"]
  ∧ fs_read Fixture.fs ["kb"; "c.txt"] = ReadUnicodeDecodeError
  ∧ EvRead "c.txt" ["kb"; "c.txt"] ∈ rs_trace Fixture.refreshed
  ∧ sources (rs_cache Fixture.refreshed) !! "c.txt" = Some Fixture.rec_c.
Proof.
  split_and!; try (vm_compute; reflexivity).
  apply (bool_decide_unpack _). vm_compute. exact I.
Qed.

(** C8, as stated, fails: refresh at time [T1] re-reads and re-hashes
    [a.txt] and changes its content_hash, and the record keeps the
    last_indexed_at of [T0]. *)
Lemma refresh_examined_record_keeps_stamp :
  EvHash "a.txt" "hello!" ∈ rs_trace Fixture.refreshed
  ∧ ∃ r', sources (rs_cache Fixture.refreshed) !! "a.txt" = Some r'
          ∧ content_hash r' ≠ content_hash Fixture.rec_a
          ∧ last_indexed_at r' = Fixture.format_rfc3339 Fixture.T0
          ∧ last_indexed_at r' ≠ Fixture.format_rfc3339 Fixture.T1.
Proof.
  split.
  - apply (bool_decide_unpack _). vm_compute. exact I.
  - eexists. split; [vm_compute; reflexivity|].
    split_and!; [vm_compute; discriminate | reflexivity
                | vm_compute; discriminate].
Qed.

(** ** More about [refresh]: closed form, fixed point, order, calls *)

Section RefreshMore.

Variable hash_text : string → string.
Variable fs : FileSystem.

Implicit Types (st : RefreshState) (r : CacheRecord) (k : string)
  (p : Path) (items : dict Path).

Local Abbreviation step := (refresh_step hash_text fs).
Local Abbreviation run := (refresh_from hash_text fs).
Local Abbreviation next := (refreshed_record hash_text fs).

(** One iteration, read on the record of its source. *)
Lemma refresh_step_record st k p :
  record_at (step st (k, p)) k
  = match record_at st k ≫= next k p with
    | Some r' => Some r'
    | None => record_at st k
    end.
Proof.
  unfold record_at, refresh_step, refreshed_record.
  destruct (sources (rs_cache st) !! k) as [r|] eqn:Hr; simpl; [|done].
  case_decide; [done|].
  destruct (fs_stat fs p) as [stat|]; [|done].
  destruct (file r) as [m|] eqn:Hm.
  - case_decide; [done|].
    destruct (fs_read fs p) as [text| |]; [|done|done].
    simpl. by rewrite lookup_insert_eq.
  - by rewrite decide_True.
Qed.

(** The record an iteration writes is one the next iteration over the
    same source leaves alone. *)
Lemma refreshed_record_settled k p r r' :
  next k p r = Some r' → next k p r' = None.
Proof.
  unfold refreshed_record. case_decide as Ht; [done|].
  destruct (fs_stat fs p) as [stat|]; [|done].
  destruct (file r) as [m|]; [|done].
  case_decide; [done|].
  destruct (fs_read fs p) as [text| |]; [|done|done].
  intros [= <-].
  assert (source_type (updated_record r k stat (hash_text text))
          = source_type r) as -> by (unfold updated_record; by case_decide).
  rewrite decide_False by (intros Hn; by apply Hn).
  rewrite file_updated_record. by rewrite decide_True.
Qed.

(** The cache after the loop, record by record. *)
Lemma refresh_from_record st items k :
  PyDict.wf items →
  record_at (run st items) k
  = match PyDict.get items k with
    | Some p =>
        match record_at st k ≫= next k p with
        | Some r' => Some r'
        | None => record_at st k
        end
    | None => record_at st k
    end.
Proof.
  revert st. induction items as [|[k0 p0] items IH]; intros st Hwf; [done|].
  apply PyDictFacts.wf_cons_inv in Hwf as [Hk0 Hwf].
  rewrite refresh_from_cons. cbn [PyDict.get].
  destruct (decide (k0 = k)) as [->|Hne].
  - rewrite refresh_from_other by done. apply refresh_step_record.
  - rewrite IH by done. by rewrite refresh_step_other.
Qed.

Lemma cache_eq (c1 c2 : CacheState) :
  (∀ k, sources c1 !! k = sources c2 !! k) → c1 = c2.
Proof. destruct c1, c2. simpl. intros H. f_equal. by apply map_eq. Qed.

Lemma changed_false_iff st items :
  PyDict.wf items → rs_changed st = false →
  rs_changed (run st items) = false
  ↔ ∀ k, record_at (run st items) k = record_at st k.
Proof.
  intros Hwf Hst.
  pose proof (refresh_from_changed hash_text fs st items Hwf) as Hiff.
  split.
  - intros Hf k.
    destruct (decide (record_at (run st items) k = record_at st k))
      as [|Hne]; [done|].
    assert (rs_changed (run st items) = true) by (apply Hiff; eauto).
    congruence.
  - intros Hall. apply not_true_is_false. intros E.
    apply Hiff in E as [?|[k Hk]]; [congruence|]. by destruct (Hk (Hall k)).
Qed.

Lemma refresh_step_events st k p :
  ∃ es, rs_trace (step st (k, p)) = rs_trace st ++ es
    ∧ (es = [] ∨ es = [EvStat k p]
       ∨ (is_Some (fs_stat fs p) ∧ es = [EvStat k p; EvRead k p])
       ∨ (is_Some (fs_stat fs p)
          ∧ ∃ text, fs_read fs p = ReadOk text
                    ∧ es = [EvStat k p; EvRead k p; EvHash k text]))
    ∧ (record_at st k = None
       ∨ (∃ r, record_at st k = Some r ∧ source_type r ≠ "file") →
       es = []).
Proof.
  unfold record_at, refresh_step.
  destruct (sources (rs_cache st) !! k) as [r|] eqn:Hr.
  2:{ exists []. rewrite app_nil_r. split_and!; [done | by left | done]. }
  case_decide as Ht.
  { exists []. rewrite app_nil_r. split_and!; [done | by left | done]. }
  destruct (fs_stat fs p) as [stat|] eqn:Hs.
  2:{ exists [EvStat k p]. split_and!; [done | right; by left |].
      intros [?|(r0 & [= <-] & Hn)]; [done | by destruct Ht]. }
  case_decide.
  { exists [EvStat k p]. split_and!; [done | right; by left |].
    intros [?|(r0 & [= <-] & Hn)]; [done | by destruct Ht]. }
  destruct (fs_read fs p) as [text| |] eqn:Hrd; simpl;
    rewrite <- ?app_assoc; simpl.
  - exists [EvStat k p; EvRead k p; EvHash k text]. split_and!; [done | |].
    + do 3 right. split; [done|]. by exists text.
    + intros [?|(r0 & [= <-] & Hn)]; [done | by destruct Ht].
  - exists [EvStat k p; EvRead k p]. split_and!; [done | |].
    + do 2 right. by left.
    + intros [?|(r0 & [= <-] & Hn)]; [done | by destruct Ht].
  - exists [EvStat k p; EvRead k p]. split_and!; [done | |].
    + do 2 right. by left.
    + intros [?|(r0 & [= <-] & Hn)]; [done | by destruct Ht].
Qed.

Lemma count_events_app f (a b : list Event) :
  count_events f (a ++ b) = (count_events f a + count_events f b)%nat.
Proof. unfold count_events. by rewrite List.filter_app, length_app. Qed.

Lemma event_allowed_cons items k p e :
  event_allowed fs items e → event_allowed fs ((k, p) :: items) e.
Proof.
  destruct e as [k' p'|k' p'|k' text]; simpl.
  - by apply list_elem_of_further.
  - intros [? ?]. split; [by apply list_elem_of_further | done].
  - intros (p' & ? & ? & ?). exists p'.
    split; [by apply list_elem_of_further | done].
Qed.

(** The calls of the whole loop. *)
Lemma refresh_from_events st items :
  ∃ es, rs_trace (run st items) = rs_trace st ++ es
    ∧ Forall (event_allowed fs items) es
    ∧ (count_events is_stat es ≤ length items)%nat
    ∧ (count_events is_read es ≤ count_events is_stat es)%nat
    ∧ (count_events is_hash es ≤ count_events is_read es)%nat.
Proof.
  revert st. induction items as [|[k p] items IH]; intros st.
  - exists []. rewrite app_nil_r. by split_and!.
  - rewrite refresh_from_cons.
    destruct (IH (step st (k, p))) as (es2 & -> & Hal2 & Hs2 & Hr2 & Hh2).
    destruct (refresh_step_events st k p) as (es1 & -> & Hcases & _).
    exists (es1 ++ es2). rewrite app_assoc. split; [done|].
    assert (Hhere : (k, p) ∈ (k, p) :: items) by apply list_elem_of_here.
    assert (Hal2' : Forall (event_allowed fs ((k, p) :: items)) es2).
    { eapply Forall_impl; [exact Hal2|]. intros e. apply event_allowed_cons. }
    rewrite !count_events_app. simpl length.
    destruct Hcases as [->|[->|[[Hst ->]|(Hst & text & Hrd & ->)]]].
    + split; [done|]. cbn. lia.
    + split; [by constructor|]. cbn. lia.
    + split; [by repeat constructor|]. cbn. lia.
    + split.
      * constructor; [done|]. constructor; [done|]. constructor; [|done].
        simpl. by exists p.
      * cbn. lia.
Qed.

Lemma refresh_from_untracked st items k :
  record_at st k = None
  ∨ (∃ r, record_at st k = Some r ∧ source_type r ≠ "file") →
  ∃ es, rs_trace (run st items) = rs_trace st ++ es
        ∧ Forall (λ e, event_source e ≠ k) es.
Proof.
  revert st. induction items as [|[k0 p0] items IH]; intros st Hun.
  - exists []. by rewrite app_nil_r.
  - rewrite refresh_from_cons.
    assert (Hun' : record_at (step st (k0, p0)) k = None
                   ∨ ∃ r, record_at (step st (k0, p0)) k = Some r
                          ∧ source_type r ≠ "file").
    { destruct Hun as [Hn|(r & Hr & Ht)].
      - left. by apply refresh_step_None.
      - right. destruct (refresh_step_evolves hash_text fs st k0 p0 k r Hr)
          as (r' & Hr' & E).
        exists r'. split; [done|]. by rewrite (ev_source_type _ _ E). }
    destruct (IH _ Hun') as (es2 & -> & H2).
    destruct (refresh_step_events st k0 p0) as (es1 & Heq1 & _ & Hnone).
    destruct (refresh_step_trace hash_text fs st k0 p0) as (es1' & Heq & H1).
    rewrite Heq1 in Heq. apply app_inv_head in Heq as <-. rewrite Heq1.
    exists (es1 ++ es2). rewrite app_assoc. split; [done|].
    apply Forall_app. split; [|done].
    destruct (decide (k0 = k)) as [->|Hne].
    + by rewrite (Hnone Hun).
    + eapply Forall_impl; [exact H1|]. simpl. intros e ->. done.
Qed.

(** Each iteration keeps the metadata of file records in place. *)
Lemma refresh_from_metadata_ok st items :
  file_metadata_ok (rs_cache st) → file_metadata_ok (rs_cache (run st items)).
Proof.
  revert st. induction items as [|[k p] items IH]; intros st Hok; [done|].
  rewrite refresh_from_cons. apply IH.
  destruct (refresh_step_outcome hash_text fs st k p)
    as [st' -> _|st' r m stat text Hr Ht Hm _ _ _ -> _ _]; [done|].
  intros k' r'. simpl. destruct (decide (k = k')) as [->|Hne].
  - rewrite lookup_insert_eq. intros [= <-] _.
    rewrite file_updated_record. by eexists.
  - rewrite lookup_insert_ne by done. apply Hok.
Qed.

End RefreshMore.

(** ** Further properties of the provider *)

Section ProviderExtras.

Variable datetime : Type.
Variable hash_text : string → string.
Variable format_rfc3339 : datetime → string.

Implicit Types (fs : FileSystem) (self : FileFolderProvider)
  (cache : CacheState) (now : datetime)
  (cs : list (FileSystem * Call datetime)).

(** X1. A second refresh over the same index and the same filesystem
    finds nothing to do: it returns false and leaves the cache as the
    first call left it. *)
Theorem refresh_second_pass_changes_nothing fs self cache now now' :
  PyDict.wf (_file_sources self) →
  rs_changed (refresh hash_text fs self
                (rs_cache (refresh hash_text fs self cache now)) now')
    = false
  ∧ rs_cache (refresh hash_text fs self
                (rs_cache (refresh hash_text fs self cache now)) now')
    = rs_cache (refresh hash_text fs self cache now).
Proof.
  intros Hwf. unfold refresh.
  set (items := _file_sources self).
  set (st0 := mkRefreshState cache false []).
  set (st1 := mkRefreshState (rs_cache (refresh_from hash_text fs st0 items))
                false []).
  assert (Hsame : ∀ k, record_at (refresh_from hash_text fs st1 items) k
                       = record_at st1 k).
  { intros k. rewrite (refresh_from_record hash_text fs st1 items k Hwf).
    destruct (PyDict.get items k) as [p|] eqn:Hget; [|done].
    assert (H1 : record_at st1 k
                 = record_at (refresh_from hash_text fs st0 items) k) by done.
    rewrite (refresh_from_record hash_text fs st0 items k Hwf), Hget in H1.
    destruct (record_at st0 k ≫= refreshed_record hash_text fs k p)
      as [r'|] eqn:Hn.
    - rewrite H1. simpl.
      destruct (record_at st0 k) as [r|]; [|done]. simpl in Hn.
      by rewrite (refreshed_record_settled hash_text fs k p r r').
    - rewrite H1. by rewrite Hn. }
  split.
  - by apply (changed_false_iff hash_text fs st1 items).
  - by apply cache_eq.
Qed.

Lemma get_Permutation {V} (d d' : dict V) k :
  PyDict.wf d → d ≡ₚ d' → PyDict.get d k = PyDict.get d' k.
Proof.
  intros Hwf Hp.
  assert (Hwf' : PyDict.wf d').
  { unfold PyDict.wf, PyDict.keys in *. by rewrite <- Hp. }
  destruct (PyDict.get d k) as [v|] eqn:Hg.
  - symmetry. apply PyDictFacts.elem_get; [done|].
    rewrite <- Hp. by apply PyDictFacts.get_Some_elem.
  - symmetry. apply PyDictFacts.get_None. apply PyDictFacts.get_None in Hg.
    unfold PyDict.keys in *. by rewrite <- Hp.
Qed.

(** X2. The order in which the index lists the sources has no effect on
    what refresh does to the cache or on the flag it returns. *)
Theorem refresh_order_irrelevant fs self self' cache now :
  PyDict.wf (_file_sources self) →
  _file_sources self ≡ₚ _file_sources self' →
  rs_cache (refresh hash_text fs self cache now)
    = rs_cache (refresh hash_text fs self' cache now)
  ∧ rs_changed (refresh hash_text fs self cache now)
    = rs_changed (refresh hash_text fs self' cache now).
Proof.
  intros Hwf Hp. unfold refresh.
  set (st0 := mkRefreshState cache false []).
  assert (Hwf' : PyDict.wf (_file_sources self')).
  { unfold PyDict.wf, PyDict.keys in *. by rewrite <- Hp. }
  assert (Hrec : ∀ k,
            record_at (refresh_from hash_text fs st0 (_file_sources self)) k
            = record_at (refresh_from hash_text fs st0 (_file_sources self')) k).
  { intros k. rewrite !refresh_from_record by done.
    by rewrite (get_Permutation _ _ k Hwf Hp). }
  split; [by apply cache_eq|].
  pose proof (refresh_from_changed hash_text fs st0 _ Hwf) as H1.
  pose proof (refresh_from_changed hash_text fs st0 _ Hwf') as H2.
  destruct (rs_changed (refresh_from hash_text fs st0 (_file_sources self)))
    eqn:E1;
    destruct (rs_changed (refresh_from hash_text fs st0 (_file_sources self')))
      eqn:E2; try done.
  - destruct (proj1 H1 eq_refl) as [?|[k Hk]]; [done|].
    rewrite Hrec in Hk. symmetry. apply H2. right. by exists k.
  - destruct (proj1 H2 eq_refl) as [?|[k Hk]]; [done|].
    rewrite <- Hrec in Hk. apply H1. right. by exists k.
Qed.

(** X3. What refresh does to the record of one source does not depend on
    the other sources of the index: it is what refresh does with that
    source alone in the index. *)
Theorem refresh_one_source_at_a_time fs self cache now sid p :
  PyDict.wf (_file_sources self) →
  PyDict.get (_file_sources self) sid = Some p →
  sources (rs_cache (refresh hash_text fs self cache now)) !! sid
  = sources (rs_cache (refresh hash_text fs
                         (mkProvider (_sources_dir self) [(sid, p)])
                         cache now)) !! sid.
Proof.
  intros Hwf Hget. unfold refresh. simpl _file_sources.
  set (st0 := mkRefreshState cache false []).
  change (record_at (refresh_from hash_text fs st0 (_file_sources self)) sid
          = record_at (refresh_from hash_text fs st0 [(sid, p)]) sid).
  rewrite !refresh_from_record; [|by apply NoDup_singleton|done].
  rewrite Hget. simpl. by rewrite decide_True.
Qed.

(** X4. refresh keeps the file metadata of the cache in order: if every
    "file" record has metadata naming its own source id before the call,
    the same holds after it, whatever the filesystem does. *)
Theorem refresh_keeps_file_metadata fs self cache now :
  file_metadata_ok cache →
  file_metadata_ok (rs_cache (refresh hash_text fs self cache now)).
Proof.
  intros Hok.
  by apply (refresh_from_metadata_ok hash_text fs
              (mkRefreshState cache false [])).
Qed.

(** X5. No provider call touches the fields it does not own: over any
    sequence of discover, init_record, refresh and load_text calls every
    record keeps its source_type and its summary_text. *)
Theorem provider_calls_keep_type_and_summary
    (w : FileFolderProvider * CacheState) cs k r :
  sources w.2 !! k = Some r →
  ∃ r', sources (run_calls hash_text w cs).2 !! k = Some r'
        ∧ source_type r' = source_type r
        ∧ summary_text r' = summary_text r.
Proof.
  intros Hr.
  destruct (run_calls_evolves datetime hash_text cs w k r Hr)
    as (r' & Hr' & E).
  exists r'. split; [done|].
  split; [apply (ev_source_type _ _ E) | apply (ev_summary_text _ _ E)].
Qed.

(** X6. refresh makes no filesystem call and computes no hash for a
    source id that has no record in the cache, or whose record is not of
    source_type "file", even when the id is in the index. *)
Theorem refresh_no_call_for_untracked fs self cache now k :
  sources cache !! k = None
  ∨ (∃ r, sources cache !! k = Some r ∧ source_type r ≠ "file") →
  ∀ e, e ∈ rs_trace (refresh hash_text fs self cache now) →
       event_source e ≠ k.
Proof.
  intros Hun.
  destruct (refresh_from_untracked hash_text fs
              (mkRefreshState cache false []) (_file_sources self) k Hun)
    as (es & Htr & Hes).
  unfold refresh. rewrite Htr. simpl. by apply Forall_forall.
Qed.

(** X7. refresh stats at most once per entry of the index, reads only
    after a stat and hashes only after a read: the number of hashes is at
    most the number of reads, which is at most the number of stats, which
    is at most the size of the index. *)
Theorem refresh_call_counts fs self cache now :
  (count_events is_hash (rs_trace (refresh hash_text fs self cache now))
   ≤ count_events is_read (rs_trace (refresh hash_text fs self cache now)))%nat
  ∧ (count_events is_read (rs_trace (refresh hash_text fs self cache now))
     ≤ count_events is_stat
         (rs_trace (refresh hash_text fs self cache now)))%nat
  ∧ (count_events is_stat (rs_trace (refresh hash_text fs self cache now))
     ≤ length (_file_sources self))%nat.
Proof.
  destruct (refresh_from_events hash_text fs
              (mkRefreshState cache false []) (_file_sources self))
    as (es & Htr & _ & Hs & Hr & Hh).
  unfold refresh. rewrite Htr. simpl. done.
Qed.

(** X8. Every call of refresh is on an indexed source: it stats only
    indexed paths, reads only indexed paths whose stat succeeded, and
    hashes only the text that the read of such a path returned. *)
Theorem refresh_calls_allowed fs self cache now :
  ∀ e, e ∈ rs_trace (refresh hash_text fs self cache now) →
       event_allowed fs (_file_sources self) e.
Proof.
  destruct (refresh_from_events hash_text fs
              (mkRefreshState cache false []) (_file_sources self))
    as (es & Htr & Hal & _).
  unfold refresh. rewrite Htr. simpl. by apply Forall_forall.
Qed.

(** X9. A record that init_record has just created is not read again by
    a refresh over the same filesystem: refresh leaves it exactly as
    init_record returned it, and makes no read and no hash for it. *)
Theorem init_record_then_refresh_skips fs self cache sid now now' r :
  PyDict.wf (_file_sources self) →
  init_record hash_text format_rfc3339 fs self sid now = Some r →
  sources cache !! sid = Some r →
  sources (rs_cache (refresh hash_text fs self cache now')) !! sid = Some r
  ∧ (∀ p', EvRead sid p' ∉ rs_trace (refresh hash_text fs self cache now'))
  ∧ (∀ text,
       EvHash sid text ∉ rs_trace (refresh hash_text fs self cache now')).
Proof.
  intros Hwf (p & stat & text & Hget & Hs & Hrd & ->)%init_record_Some Hr.
  destruct (refresh_from_short_circuit hash_text fs
              (mkRefreshState cache false []) (_file_sources self) sid p _
              Hwf Hget Hr)
    as (Hrec & es & Htr & Hes); [done| |].
  { unfold short_circuits. rewrite Hs. right. by eexists. }
  split; [exact Hrec|]. unfold refresh. rewrite Htr. simpl.
  by apply (trace_only_stat _ sid p).
Qed.

(** X10. init_record and load_text read the same file: when init_record
    returns a record, load_text under the same filesystem returns a text
    and the record's content_hash is the hash of that text; when load_text
    returns nothing, so does init_record. *)
Theorem init_record_hashes_loaded_text fs self sid now :
  (∀ r, init_record hash_text format_rfc3339 fs self sid now = Some r →
        ∃ text, load_text fs self sid = Some text
                ∧ content_hash r = hash_text text)
  ∧ (load_text fs self sid = None →
     init_record hash_text format_rfc3339 fs self sid now = None).
Proof.
  split.
  - intros r (p & stat & text & Hget & Hs & Hrd & ->)%init_record_Some.
    exists text. unfold load_text. by rewrite Hget, Hrd.
  - unfold load_text, init_record.
    destruct (PyDict.get (_file_sources self) sid) as [p|]; [|done].
    destruct (fs_read fs p); [done| |]; by destruct (fs_stat fs p).
Qed.

End ProviderExtras.

(** ** Further properties of [discover] *)

Section DiscoverExtras.

Variable datetime : Type.

Implicit Types (fs : FileSystem) (self : FileFolderProvider) (now : datetime).

(** X11. The index discover leaves in the provider matches the mapping it
    returns: same keys in the same order, no key twice, and every key is
    mapped to the path, under the root, of a regular file whose name does
    not start with "." and whose relative path the key spells.  The root
    of the provider is unchanged. *)
Theorem discover_index_matches fs self now :
  PyDict.wf (_file_sources (discover fs self now).1)
  ∧ PyDict.keys (_file_sources (discover fs self now).1)
    = PyDict.keys (discover fs self now).2
  ∧ _sources_dir (discover fs self now).1 = _sources_dir self
  ∧ ∀ k p,
      PyDict.get (_file_sources (discover fs self now).1) k = Some p →
      ∃ tree rel,
        fs_root fs = Some tree
        ∧ p = _sources_dir self ++ rel
        ∧ k = as_posix rel
        ∧ below tree rel File
        ∧ startswith (name rel) "." = false.
Proof.
  destruct (discover_index datetime fs self now) as (Hwf & Hk & _).
  split; [done|]. split; [done|].
  unfold discover. destruct (fs_root fs) as [tree|]; simpl; [|done].
  split; [done|].
  intros k p [(e & rel & Hin & Ha & -> & ->)|H]%walk_paths; [|done].
  exists tree, rel.
  destruct (proj1 (accepted_rglob (_sources_dir self) tree rel))
    as [Hb Hdot]; [by exists e|].
  destruct e as [p n]. apply rglob_below_1 in Hin as (rel' & -> & _).
  destruct Ha as (_ & _ & Hrel). simpl in Hrel.
  rewrite relative_to_app in Hrel. by simplify_eq.
Qed.

(** X12. The name test of discover looks at the file name only: a regular
    file whose own name does not start with "." is reported even when the
    directory it lies in has a name that does (such as [.git]). *)
Theorem discover_enters_dot_directories fs self now entries d sub f :
  fs_root fs = Some (Dir entries) →
  (d, Dir sub) ∈ entries →
  (f, File) ∈ sub →
  startswith f "." = false →
  PyDict.get (discover fs self now).2 (as_posix [d; f]) = Some "file".
Proof.
  intros Hroot Hd Hf Hdot. unfold discover. rewrite Hroot. simpl.
  apply walk_sources; [done|]. split; [done|]. left.
  destruct (proj2 (accepted_rglob (_sources_dir self) (Dir entries) [d; f]))
    as (e & Hin & Ha).
  { split; [|done]. eapply below_deeper; [exact Hd|]. by constructor. }
  by exists e, [d; f].
Qed.

End DiscoverExtras.

(** ** Facts about the text helpers *)

Module AIResponseFacts.
Import AIResponse.

Section StripFacts.

Variable isspace : Ascii.ascii → bool.

Local Abbreviation lstrip := (lstrip isspace).
Local Abbreviation rstrip := (rstrip isspace).
Local Abbreviation strip := (strip isspace).

Lemma lstrip_idem s : lstrip (lstrip s) = lstrip s.
Proof.
  induction s as [|c s IH]; simpl; [done|].
  destruct (isspace c) eqn:E; [done|]. simpl. by rewrite E.
Qed.

Lemma rstrip_idem s : rstrip (rstrip s) = rstrip s.
Proof.
  induction s as [|c s IH]; simpl; [done|].
  destruct (rstrip s) as [|c' t] eqn:E.
  - destruct (isspace c) eqn:Ec; simpl; [done|]. by rewrite Ec.
  - simpl in *. by rewrite IH.
Qed.

Lemma rstrip_lstrip s : rstrip (lstrip s) = lstrip (rstrip s).
Proof.
  induction s as [|c s IH]; simpl; [done|].
  destruct (isspace c) eqn:Ec.
  - rewrite IH. destruct (rstrip s) as [|c' t]; simpl; by rewrite ?Ec.
  - simpl. destruct (rstrip s) as [|c' t]; simpl; by rewrite Ec.
Qed.

Lemma strip_idem s : strip (strip s) = strip s.
Proof.
  unfold AIResponse.strip.
  by rewrite rstrip_lstrip, rstrip_idem, lstrip_idem.
Qed.

Local Abbreviation link_step := (link_step isspace).
Local Abbreviation is_url s := (startswith_any s ["http://"; "https://"]).

(** The links of the loop come after the ones collected before. *)
Lemma link_step_foldl acc ids :
  foldl link_step acc ids = acc ++ foldl link_step [] ids.
Proof.
  revert acc. induction ids as [|id ids IH]; intros acc; simpl.
  - by rewrite app_nil_r.
  - rewrite (IH (link_step acc id)), (IH (link_step [] id)).
    rewrite app_assoc. f_equal. unfold AIResponse.link_step.
    repeat case_match; by rewrite ?app_nil_r.
Qed.




Lemma lookup_map {A B} (f : A → B) (l : list A) (i : nat) :
  map f l !! i = f <$> (l !! i).
Proof.
  revert i. induction l as [|x l IH]; intros [|i]; simpl; done.
Qed.

(** X16. The placeholders are one per attachment, in order, and each
    starts with "Image: " or "Attachment: " according to the kind of the
    attachment, followed by a name that is not empty. *)
Theorem attachment_placeholders_one_per_attachment msg :
  length (_build_attachment_placeholders isspace msg)
    = length (default [] (attachments msg))
  ∧ ∀ i a, default [] (attachments msg) !! i = Some a →
      ∃ shown, shown ≠ ""
        ∧ _build_attachment_placeholders isspace msg !! i
          = Some (String.append (if is_image a then "Image: "
                                 else "Attachment: ") shown).
Proof.
  unfold _build_attachment_placeholders.
  destruct (attachments msg) as [[|a0 l]|]; try done.
  cbn [truthy default].
  split; [by rewrite length_map|].
  intros i a Hi. rewrite lookup_map, Hi. simpl.
  unfold _attachment_placeholder_line.
  destruct (strip (default "" (filename a))) as [|c s] eqn:Hn; simpl.
  - exists "file uploaded". split; [done|]. by destruct (is_image a).
  - exists (String c s). split; [done|]. by destruct (is_image a).
Qed.

Variable Base64Image : Type.
Variable build_base64_images : list ImageInput → option (list Base64Image).

Local Abbreviation user_parts_from :=
  (user_parts_from isspace Base64Image build_base64_images).
Local Abbreviation _build_user_parts :=
  (_build_user_parts isspace Base64Image build_base64_images).

Lemma user_parts_from_filter parts messages :
  user_parts_from parts messages
  = user_parts_from parts (filter (λ m, role m = "user") messages).
Proof.
  revert parts. induction messages as [|m ms IH]; intros parts; [done|].
  rewrite filter_cons. destruct (decide (role m = "user")) as [Hr|Hr].
  - simpl. destruct (decide (role m ≠ "user")) as [Hn|_]; [done|].
    destruct (truthy (images m)); [|apply IH].
    destruct (build_base64_images _); [apply IH | done].
  - simpl. destruct (decide (role m ≠ "user")) as [_|Hn]; [apply IH|].
    by destruct Hn.
Qed.

(** X17. Only the messages of the user count: [_build_user_parts] gives
    for a conversation what it gives for its "user" messages alone, and
    for a conversation without any it gives no part, without converting
    an image. *)
Theorem build_user_parts_only_user_messages messages :
  _build_user_parts messages
    = _build_user_parts (filter (λ m, role m = "user") messages)
  ∧ ((∀ m, m ∈ messages → role m ≠ "user") →
     _build_user_parts messages = Some []).
Proof.
  split; [apply user_parts_from_filter|].
  intros Hno. unfold AIResponse._build_user_parts.
  rewrite user_parts_from_filter.
  assert (Hf : filter (λ m, role m = "user") messages = []); [|by rewrite Hf].
  induction messages as [|m ms IH]; [done|].
  rewrite filter_cons, decide_False.
  - apply IH. intros m' Hin. apply Hno. by apply list_elem_of_further.
  - apply Hno. apply list_elem_of_here.
Qed.

Lemma user_parts_from_text_only parts messages :
  (∀ m, m ∈ messages → role m = "user" → truthy (images m) = false) →
  Forall (is_text_part Base64Image) parts →
  ∃ parts', user_parts_from parts messages = Some parts'
            ∧ Forall (is_text_part Base64Image) parts'.
Proof.
  revert parts. induction messages as [|m ms IH]; intros parts Hno Hparts.
  - by exists parts.
  - assert (Hms : ∀ m', m' ∈ ms → role m' = "user" →
                        truthy (images m') = false)
      by (intros m' Hin; apply Hno; by apply list_elem_of_further).
    simpl. destruct (decide (role m ≠ "user")) as [Hr|Hr]; [by apply IH|].
    apply dec_stable in Hr.
    rewrite (Hno m (list_elem_of_here _ _) Hr).
    apply IH; [done|].
    destruct (_format_text_lines isspace m); [done|].
    apply Forall_app. split; [done|]. by constructor.
Qed.

(** X18. When no user message carries an image, [_build_user_parts]
    cannot fail (it never converts an image) and returns text parts
    only. *)
Theorem build_user_parts_text_only messages :
  (∀ m, m ∈ messages → role m = "user" → truthy (images m) = false) →
  ∃ parts, _build_user_parts messages = Some parts
           ∧ Forall (is_text_part Base64Image) parts.
Proof.
  intros Hno. by apply user_parts_from_text_only.
Qed.


End StripFacts.

End AIResponseFacts.

(** ** Facts about [_build_required_placeholders] *)

Module MockAIFacts.
Import MockAI.

(** The value stored for a required field. *)
Lemma placeholder_step_get data name field k :
  PyDict.get (placeholder_step data (name, field)) k
  = if decide (name = k)
    then if is_required field
         then Some match annotation field with
                   | AnnStr => PyStr "mock"
                   | AnnBool => PyBool false
                   | AnnInt => PyInt 0
                   | AnnFloat => PyFloatZero
                   | AnnOther => PyNone
                   end
         else PyDict.get data k
    else PyDict.get data k.
Proof.
  unfold placeholder_step. destruct (is_required field); simpl.
  - destruct (annotation field); by rewrite PyDictFacts.get_set.
  - by case_decide.
Qed.

Lemma placeholders_from_get (fields : dict FieldInfo) data k :
  PyDict.wf fields →
  PyDict.get (foldl placeholder_step data fields) k
  = match PyDict.get fields k with
    | Some field =>
        if is_required field
        then Some match annotation field with
                  | AnnStr => PyStr "mock"
                  | AnnBool => PyBool false
                  | AnnInt => PyInt 0
                  | AnnFloat => PyFloatZero
                  | AnnOther => PyNone
                  end
        else PyDict.get data k
    | None => PyDict.get data k
    end.
Proof.
  revert data. induction fields as [|[name field] fields IH];
    intros data Hwf; [done|].
  apply PyDictFacts.wf_cons_inv in Hwf as [Hname Hwf].
  change (foldl placeholder_step data ((name, field) :: fields))
    with (foldl placeholder_step (placeholder_step data (name, field)) fields).
  rewrite IH by done. cbn [PyDict.get].
  rewrite placeholder_step_get.
  destruct (decide (name = k)) as [->|Hne]; [|done].
  apply PyDictFacts.get_None in Hname. by rewrite Hname.
Qed.

(** X20. [_build_required_placeholders] gives a value to the required
    fields of the model and to no other name: "mock", False, 0 or 0.0 for
    a field annotated str, bool, int or float, and None for any other
    annotation. *)
Theorem required_placeholders_lookup (model_fields : dict FieldInfo) k :
  PyDict.wf model_fields →
  PyDict.get (_build_required_placeholders model_fields) k
  = match PyDict.get model_fields k with
    | Some field =>
        if is_required field
        then Some match annotation field with
                  | AnnStr => PyStr "mock"
                  | AnnBool => PyBool false
                  | AnnInt => PyInt 0
                  | AnnFloat => PyFloatZero
                  | AnnOther => PyNone
                  end
        else None
    | None => None
    end.
Proof.
  intros Hwf. unfold _build_required_placeholders.
  by rewrite placeholders_from_get.
Qed.

End MockAIFacts.

(** ** The further properties on the fixtures *)

Lemma refresh_second_pass_changes_nothing_witness :
  rs_changed (refresh Fixture.hash_text Fixture.fs Fixture.provider
                (rs_cache Fixture.refreshed) Fixture.T1) = false
  ∧ rs_cache (refresh Fixture.hash_text Fixture.fs Fixture.provider
                (rs_cache Fixture.refreshed) Fixture.T1)
    = rs_cache Fixture.refreshed.
Proof.
  apply (refresh_second_pass_changes_nothing Fixture.datetime
           Fixture.hash_text Fixture.fs Fixture.provider Fixture.cache
           Fixture.T1 Fixture.T1).
  apply (bool_decide_unpack _). vm_compute. exact I.
Defined.

Lemma refresh_order_irrelevant_witness :
  rs_cache Fixture.refreshed
    = rs_cache (refresh Fixture.hash_text Fixture.fs
                  FixtureExtras.swapped_provider Fixture.cache Fixture.T1)
  ∧ rs_changed Fixture.refreshed
    = rs_changed (refresh Fixture.hash_text Fixture.fs
                    FixtureExtras.swapped_provider Fixture.cache Fixture.T1).
Proof.
  apply (refresh_order_irrelevant Fixture.datetime Fixture.hash_text
           Fixture.fs Fixture.provider FixtureExtras.swapped_provider
           Fixture.cache Fixture.T1).
  - apply (bool_decide_unpack _). vm_compute. exact I.
  - simpl. apply perm_swap.
Defined.

Lemma refresh_one_source_at_a_time_witness :
  sources (rs_cache Fixture.refreshed) !! "a.txt"
  = sources (rs_cache (refresh Fixture.hash_text Fixture.fs
                         (mkProvider ["kb"] [("a.txt", ["kb"; "a.txt"])])
                         Fixture.cache Fixture.T1)) !! "a.txt".
Proof.
  apply (refresh_one_source_at_a_time Fixture.datetime Fixture.hash_text
           Fixture.fs Fixture.provider Fixture.cache Fixture.T1
           "a.txt" ["kb"; "a.txt"]).
  - apply (bool_decide_unpack _). vm_compute. exact I.
  - vm_compute. reflexivity.
Defined.

Lemma refresh_keeps_file_metadata_witness :
  file_metadata_ok
    (rs_cache (refresh Fixture.hash_text Fixture.fs Fixture.provider
                 FixtureExtras.tidy_cache Fixture.T1)).
Proof.
  apply (refresh_keeps_file_metadata Fixture.datetime Fixture.hash_text
           Fixture.fs Fixture.provider FixtureExtras.tidy_cache Fixture.T1).
  intros k r. unfold FixtureExtras.tidy_cache. simpl.
  destruct (decide (k = "a.txt")) as [->|Ha].
  - rewrite lookup_insert_eq. intros [= <-] _.
    exists (mkFileMetadata "a.txt" 5 100). split; reflexivity.
  - rewrite lookup_insert_ne by done.
    destruct (decide (k = "page")) as [->|Hp].
    + rewrite lookup_insert_eq. intros [= <-] Ht. discriminate Ht.
    + rewrite lookup_insert_ne by done. rewrite lookup_empty. discriminate.
Defined.

Lemma provider_calls_keep_type_and_summary_witness :
  ∃ r', sources
          (run_calls Fixture.hash_text (Fixture.provider, Fixture.cache)
             [(Fixture.fs, CallRefresh Fixture.T1);
              (Fixture.fs, CallDiscover Fixture.T1);
              (Fixture.fs, CallRefresh Fixture.T1)]).2 !! "a.txt" = Some r'
        ∧ source_type r' = source_type Fixture.rec_a
        ∧ summary_text r' = summary_text Fixture.rec_a.
Proof.
  apply (provider_calls_keep_type_and_summary Fixture.datetime
           Fixture.hash_text (Fixture.provider, Fixture.cache) _
           "a.txt" Fixture.rec_a).
  vm_compute. reflexivity.
Defined.

Lemma refresh_no_call_for_untracked_witness :
  (∀ e, e ∈ rs_trace Fixture.refreshed → event_source e ≠ "page")
  ∧ (∀ e, e ∈ rs_trace Fixture.refreshed → event_source e ≠ "g.txt").
Proof.
  split.
  - apply (refresh_no_call_for_untracked Fixture.datetime Fixture.hash_text
             Fixture.fs Fixture.provider Fixture.cache Fixture.T1 "page").
    right. exists Fixture.rec_page. split; [vm_compute; reflexivity|].
    vm_compute. discriminate.
  - apply (refresh_no_call_for_untracked Fixture.datetime Fixture.hash_text
             Fixture.fs Fixture.provider Fixture.cache Fixture.T1 "g.txt").
    left. vm_compute. reflexivity.
Defined.

Lemma refresh_calls_allowed_witness :
  event_allowed Fixture.fs (_file_sources Fixture.provider)
    (EvHash "a.txt" "hello!").
Proof.
  apply (refresh_calls_allowed Fixture.datetime Fixture.hash_text
           Fixture.fs Fixture.provider Fixture.cache Fixture.T1).
  apply (bool_decide_unpack _). vm_compute. exact I.
Defined.

Lemma init_record_then_refresh_skips_witness :
  sources (rs_cache (refresh Fixture.hash_text Fixture.fs Fixture.provider
                       FixtureExtras.cache_with_g Fixture.T1)) !! "g.txt"
    = Some FixtureExtras.created_g
  ∧ (∀ p', EvRead "g.txt" p'
           ∉ rs_trace (refresh Fixture.hash_text Fixture.fs Fixture.provider
                         FixtureExtras.cache_with_g Fixture.T1))
  ∧ (∀ text, EvHash "g.txt" text
             ∉ rs_trace (refresh Fixture.hash_text Fixture.fs
                           Fixture.provider FixtureExtras.cache_with_g
                           Fixture.T1)).
Proof.
  apply (init_record_then_refresh_skips Fixture.datetime Fixture.hash_text
           Fixture.format_rfc3339 Fixture.fs Fixture.provider
           FixtureExtras.cache_with_g "g.txt" Fixture.T1 Fixture.T1
           FixtureExtras.created_g).
  - apply (bool_decide_unpack _). vm_compute. exact I.
  - vm_compute. reflexivity.
  - vm_compute. reflexivity.
Defined.

Lemma init_record_hashes_loaded_text_witness :
  (∃ text, load_text Fixture.fs Fixture.provider "g.txt" = Some text
           ∧ content_hash FixtureExtras.created_g = Fixture.hash_text text)
  ∧ init_record Fixture.hash_text Fixture.format_rfc3339
      Fixture.fs Fixture.provider "c.txt" Fixture.T1 = None.
Proof.
  split.
  - apply (proj1 (init_record_hashes_loaded_text Fixture.datetime
                    Fixture.hash_text Fixture.format_rfc3339 Fixture.fs
                    Fixture.provider "g.txt" Fixture.T1)).
    vm_compute. reflexivity.
  - apply (proj2 (init_record_hashes_loaded_text Fixture.datetime
                    Fixture.hash_text Fixture.format_rfc3339 Fixture.fs
                    Fixture.provider "c.txt" Fixture.T1)).
    vm_compute. reflexivity.
Defined.

Lemma discover_index_matches_witness :
  ∃ tree rel,
    fs_root Fixture.fs = Some tree
    ∧ ["kb"; "sub"; "x.md"] = ["kb"] ++ rel
    ∧ "sub/x.md" = as_posix rel
    ∧ below tree rel File
    ∧ startswith (name rel) "." = false.
Proof.
  destruct (discover_index_matches Fixture.datetime Fixture.fs
              (mkProvider ["kb"] []) Fixture.T1) as (_ & _ & _ & Hpath).
  apply (Hpath "sub/x.md" ["kb"; "sub"; "x.md"]).
  vm_compute. reflexivity.
Defined.

Lemma discover_enters_dot_directories_witness :
  PyDict.get (discover FixtureExtras.dot_fs (mkProvider ["kb"] [])
                Fixture.T1).2 ".git/config" = Some "file".
Proof.
  apply (discover_enters_dot_directories Fixture.datetime
           FixtureExtras.dot_fs (mkProvider ["kb"] []) Fixture.T1
           [(".git", Dir [("config", File)])] ".git" [("config", File)]
           "config").
  - reflexivity.
  - apply list_elem_of_here.
  - apply list_elem_of_here.
  - vm_compute. reflexivity.
Defined.



Lemma attachment_placeholders_one_per_attachment_witness :
  ∃ shown, shown ≠ ""
    ∧ AIResponse._build_attachment_placeholders AIResponse.ascii_isspace
        FixtureExtras.user_files !! 1%nat
      = Some (String.append "Attachment: " shown).
Proof.
  destruct (AIResponseFacts.attachment_placeholders_one_per_attachment
              AIResponse.ascii_isspace FixtureExtras.user_files)
    as [_ Hline].
  apply (Hline 1%nat (AIResponse.mkAttachmentInput None false)).
  reflexivity.
Defined.

Lemma build_user_parts_only_user_messages_witness :
  AIResponse._build_user_parts AIResponse.ascii_isspace string
    FixtureExtras.failing_images
    [FixtureExtras.bot_picture; FixtureExtras.bot_picture]
  = Some [].
Proof.
  apply (proj2 (AIResponseFacts.build_user_parts_only_user_messages
                  AIResponse.ascii_isspace string
                  FixtureExtras.failing_images
                  [FixtureExtras.bot_picture; FixtureExtras.bot_picture])).
  intros m Hin.
  apply elem_of_cons in Hin as [->|Hin];
    [|apply elem_of_cons in Hin as [->|Hin];
      [|by apply elem_of_nil in Hin]];
    vm_compute; discriminate.
Defined.

Lemma build_user_parts_text_only_witness :
  ∃ parts,
    AIResponse._build_user_parts AIResponse.ascii_isspace string
      FixtureExtras.failing_images
      [FixtureExtras.user_hello; FixtureExtras.bot_picture;
       FixtureExtras.user_files]
    = Some parts
    ∧ Forall (AIResponse.is_text_part string) parts.
Proof.
  apply (AIResponseFacts.build_user_parts_text_only
           AIResponse.ascii_isspace string FixtureExtras.failing_images).
  intros m Hin Hrole.
  apply elem_of_cons in Hin as [->|Hin];
    [reflexivity|].
  apply elem_of_cons in Hin as [->|Hin];
    [vm_compute in Hrole; discriminate Hrole|].
  apply elem_of_cons in Hin as [->|Hin];
    [reflexivity | by apply elem_of_nil in Hin].
Defined.


Lemma required_placeholders_lookup_witness :
  PyDict.get
    (MockAI._build_required_placeholders
       [("title", MockAI.mkFieldInfo true MockAI.AnnStr);
        ("note", MockAI.mkFieldInfo false MockAI.AnnStr);
        ("tags", MockAI.mkFieldInfo true MockAI.AnnOther)]) "tags"
  = Some MockAI.PyNone.
Proof.
  apply (MockAIFacts.required_placeholders_lookup
           [("title", MockAI.mkFieldInfo true MockAI.AnnStr);
            ("note", MockAI.mkFieldInfo false MockAI.AnnStr);
            ("tags", MockAI.mkFieldInfo true MockAI.AnnOther)] "tags").
  apply (bool_decide_unpack _). vm_compute. exact I.
Defined.
